(** * onepdfshrink: a shallow embedding of [onepdfshrink.py]

    The development follows the source file function by function:
    [decode_pdf_image], [compress_image], [extract_and_compress_images],
    [split_pdf_by_size] and [compress_pdf].  PyPDF2, Pillow, zlib and the
    file system are external to the program; they appear here as
    interfaces (type classes) whose operations may raise. *)

From Stdlib Require Import ZArith QArith Strings.Byte Strings.Ascii.
From stdpp Require Import base tactics option list strings pretty gmap fin_maps.

Close Scope Q_scope.
Open Scope Z_scope.

(* ===================================================================== *)
(** * Python values, exceptions and control flow                          *)
(* ===================================================================== *)

Module Py.

(** The exception classes the program can meet.  All of them derive
    from [Exception], so every [except Exception] clause catches them. *)
Inductive exn : Set :=
| AttributeError
| KeyError
| IndexError
| UnboundLocalError
| ZlibError
| CodecError
| OSError
| TypeError
| PdfReadError.

(** A computation without state: a value or a raised exception. *)
Inductive res (A : Type) : Type :=
| Ok (a : A)
| Raise (e : exn).
Arguments Ok {A} a.
Arguments Raise {A} e.

Definition rbind {A B} (m : res A) (k : A -> res B) : res B :=
  match m with
  | Ok a => k a
  | Raise e => Raise e
  end.

(** [try: m except Exception: h]. *)
Definition rtry {A} (m : res A) (h : exn -> res A) : res A :=
  match m with
  | Ok a => Ok a
  | Raise e => h e
  end.

(** A computation over a mutable state [S].  The state reached when an
    exception is raised is kept: Python does not roll mutations back. *)
Definition M (S A : Type) : Type := S -> res A * S.

Definition ret {S A} (a : A) : M S A := fun s => (Ok a, s).
Definition raise {S A} (e : exn) : M S A := fun s => (Raise e, s).
Definition lift {S A} (r : res A) : M S A := fun s => (r, s).
Definition get {S} : M S S := fun s => (Ok s, s).
Definition modify {S} (f : S -> S) : M S unit := fun s => (Ok tt, f s).

Definition bind {S A B} (m : M S A) (k : A -> M S B) : M S B :=
  fun s =>
    match m s with
    | (Ok a, s') => k a s'
    | (Raise e, s') => (Raise e, s')
    end.

Definition try_except {S A} (m : M S A) (h : exn -> M S A) : M S A :=
  fun s =>
    match m s with
    | (Ok a, s') => (Ok a, s')
    | (Raise e, s') => h e s'
    end.

(** [for x in l: body x], where [body] has no [break]. *)
Fixpoint for_each {S A} (l : list A) (body : A -> M S unit) : M S unit :=
  match l with
  | [] => ret tt
  | x :: l' => bind (body x) (fun _ => for_each l' body)
  end.

(** [[f(i) for i in l]] with a body that may raise. *)
Fixpoint collect {A B} (l : list A) (f : A -> res B) : res (list B) :=
  match l with
  | [] => Ok []
  | x :: l' =>
      rbind (f x) (fun y => rbind (collect l' f) (fun ys => Ok (y :: ys)))
  end.

(** [range(n)]. *)
Definition range (n : Z) : list Z := Z.of_nat <$> seq 0 (Z.to_nat n).

(** [l[i]] for a Python sequence: a negative index counts from the
    end, anything out of range raises [IndexError]. *)
Definition index {A} (l : list A) (i : Z) : res A :=
  let n := Z.of_nat (length l) in
  let j := if i <? 0 then i + n else i in
  if (j <? 0) || (n <=? j) then Raise IndexError
  else match l !! Z.to_nat j with
       | Some x => Ok x
       | None => Raise IndexError
       end.

End Py.

Import Py.

Notation "'let?' x ':=' m 'in' k" := (rbind m (fun x => k))
  (at level 10, x name, m at level 100, k at level 200, only parsing).
Notation "'let*' x ':=' m 'in' k" := (bind m (fun x => k))
  (at level 10, x name, m at level 100, k at level 200, only parsing).
Notation "m ';;' k" := (bind m (fun _ => k))
  (at level 100, k at level 200, right associativity, only parsing).

(** [bytes] objects. *)
Definition bytes : Type := list byte.

#[export] Instance byte_eq_dec : EqDecision byte := Byte.byte_eq_dec.

(** [len(b)]. *)
Definition len (b : bytes) : Z := Z.of_nat (length b).

(** A value stored under a key of a PDF dictionary.  An array is kept as
    the list of the [str()] of its elements, which is all the program
    looks at; [VOther s] is any other object, [s] being its [str()]. *)
Inductive pyval : Type :=
| VName (s : string)
| VNum (n : Z)
| VArray (l : list string)
| VOther (s : string).

#[export] Instance pyval_eq_dec : EqDecision pyval.
Proof. solve_decision. Defined.

(** [str(v)] for a scalar value. *)
Definition py_str (v : pyval) : string :=
  match v with
  | VName s => s
  | VNum n => pretty n
  | VArray l => "[" +:+ String.concat ", " l +:+ "]"
  | VOther s => s
  end.

(** What an entry of an XObject dictionary resolves to.  [PDict attrs
    data] is a dictionary-like object; [data] is its [_data] attribute,
    which only stream objects have.  [PNonDict] is any object without a
    [get] method (a null object, a number, an array, ...). *)
Inductive pyobj : Type :=
| PDict (attrs : gmap string pyval) (data : option bytes)
| PNonDict.

(** [needle in hay] on strings. *)
Fixpoint contains (needle hay : string) : bool :=
  String.prefix needle hay ||
  match hay with
  | EmptyString => false
  | String _ hay' => contains needle hay'
  end.

(* ===================================================================== *)
(** * External capabilities                                               *)
(* ===================================================================== *)

(** [zlib.decompress]; [None] stands for [zlib.error]. *)
Class Zlib := { zlib_decompress : bytes -> option bytes }.

(** The part of Pillow that [compress_image] calls.  Methods that mutate
    the image in place ([paste], [thumbnail]) return the mutated image. *)
Class Pillow := {
  PIL_AVAILABLE : bool;
  image : Type;
  Image_open : bytes -> res image;
  image_mode : image -> string;
  image_size : image -> Z * Z;
  Image_new_RGB : Z * Z -> res image;
  image_convert : image -> string -> res image;
  image_split_last : image -> res image;
  image_paste : image -> image -> option image -> res image;
  image_thumbnail : image -> Z * Z -> res image;
  image_save_jpeg : image -> Z -> res bytes
}.

(* ===================================================================== *)
(** * [decode_pdf_image]                                                   *)
(* ===================================================================== *)

(** Which arm of the [if]/[elif] chain a filter name selects. *)
Inductive filter_arm : Set :=
| ArmFlate
| ArmDCT
| ArmUnsupported
| ArmIgnored.

Definition select_arm (filter_name : string) : filter_arm :=
  if contains "/FlateDecode" filter_name then ArmFlate
  else if contains "/DCTDecode" filter_name then ArmDCT
  else if contains "/CCITTFaxDecode" filter_name then ArmUnsupported
  else if contains "/JBIG2Decode" filter_name then ArmUnsupported
  else if contains "/JPXDecode" filter_name then ArmUnsupported
  else ArmIgnored.

(** The [for filter_type in filters] loop with its early returns; the
    result is the function's return value, [None] being Python's. *)
Fixpoint decode_loop `{Zlib} (filters : list string) (data : bytes)
  : res (option bytes) :=
  match filters with
  | [] => Ok (Some data)
  | filter_name :: filters' =>
      match select_arm filter_name with
      | ArmFlate =>
          match zlib_decompress data with
          | Some data' => decode_loop filters' data'
          | None => Raise ZlibError
          end
      | ArmDCT => Ok (Some data)
      | ArmUnsupported => Ok None
      | ArmIgnored => decode_loop filters' data
      end
  end.

(** [obj.get(key)]. *)
Definition obj_get (obj : pyobj) (key : string) : res (option pyval) :=
  match obj with
  | PDict attrs _ => Ok (attrs !! key)
  | PNonDict => Raise AttributeError
  end.

(** [obj._data]. *)
Definition obj_data (obj : pyobj) : res bytes :=
  match obj with
  | PDict _ (Some d) => Ok d
  | _ => Raise AttributeError
  end.

(** [if not isinstance(filters, list): filters = [filters]], followed by
    [str(filter_type)] on every element. *)
Definition filter_names (filters : pyval) : list string :=
  match filters with
  | VArray l => l
  | _ => [py_str filters]
  end.

Definition decode_pdf_image `{Zlib} (obj : pyobj) : option bytes :=
  match
    (let? filters := obj_get obj "/Filter" in
     match filters with
     | None => let? d := obj_data obj in Ok (Some d)
     | Some f =>
         let? data := obj_data obj in
         decode_loop (filter_names f) data
     end)
  with
  | Ok r => r
  | Raise _ => None
  end.

(* ===================================================================== *)
(** * [compress_image]                                                     *)
(* ===================================================================== *)

Definition mode_in (m : string) (l : list string) : bool :=
  bool_decide (m ∈ l).

(** The body of the [try] block: everything from [Image.open] to
    [output_buffer.getvalue()]. *)
Definition encode_jpeg `{Pillow} (image_data : bytes)
    (quality max_width max_height : Z) : res bytes :=
  let? img := Image_open image_data in
  let? img :=
    (if mode_in (image_mode img) ["RGBA"; "LA"; "P"] then
       let? background := Image_new_RGB (image_size img) in
       let? img :=
         (if bool_decide (image_mode img = "P")
          then image_convert img "RGBA" else Ok img) in
       if mode_in (image_mode img) ["RGBA"; "LA"] then
         let? mask := image_split_last img in
         image_paste background img (Some mask)
       else
         image_paste background img None
     else if negb (bool_decide (image_mode img = "RGB")) then
       image_convert img "RGB"
     else Ok img) in
  let? img := image_thumbnail img (max_width, max_height) in
  image_save_jpeg img quality.

Definition compress_image `{Pillow} (image_data : option bytes)
    (quality max_width max_height : Z) : option bytes :=
  match negb PIL_AVAILABLE, image_data with
  | true, _ | _, None => image_data
  | false, Some data =>
      match encode_jpeg data quality max_width max_height with
      | Ok compressed_data =>
          if len compressed_data <? len data
          then Some compressed_data
          else image_data
      | Raise _ => image_data
      end
  end.

(* ===================================================================== *)
(** * [extract_and_compress_images]                                        *)
(* ===================================================================== *)

(** The object graph behind a [PdfReader].  Objects are shared: two pages
    may point to the same XObject dictionary, and two entries to the same
    image object, so both live in a store and are referred to by
    identifier.  An XObject dictionary keeps its keys in insertion order;
    a Python dictionary has no duplicate keys, and the operations below
    act on the first binding of a key. *)
Record heap : Type := Heap {
  objs : gmap nat pyobj;
  dicts : gmap nat (list (string * nat))
}.

(** What the test ['/Resources' in page and '/XObject' in
    page['/Resources']] finds: it is false; it is true, and
    [page['/Resources']['/XObject']] is the object [xo]; or its
    evaluation raises, [page['/Resources']] being no container. *)
Inductive resources : Set :=
| NoXObject
| XObject (xo : nat)
| Unreadable.

#[export] Instance resources_eq_dec : EqDecision resources.
Proof. solve_decision. Defined.

(** A page: its identity and its resources. *)
Record page : Type := Page {
  page_id : nat;
  page_resources : resources
}.

#[export] Instance page_eq_dec : EqDecision page.
Proof. solve_decision. Defined.

(** The mutable state of one run: the object graph, the two counters and
    the pages added to [pdf_writer] so far.  [counter_log] is a ghost
    field: it records [(images_processed, images_compressed)] after every
    assignment to a counter, most recent first. *)
Record rw_state : Type := RwState {
  st_heap : heap;
  images_processed : Z;
  images_compressed : Z;
  writer_pages : list page;
  counter_log : list (Z * Z)
}.

Definition init_state (h : heap) : rw_state :=
  RwState h 0 0 [] [].

Definition quality_map (compression_level : string) : Z :=
  if bool_decide (compression_level = "low") then 70
  else if bool_decide (compression_level = "medium") then 50
  else if bool_decide (compression_level = "high") then 20
  else 50.

Definition size_map (compression_level : string) : Z * Z :=
  if bool_decide (compression_level = "low") then (1200, 900)
  else if bool_decide (compression_level = "medium") then (800, 600)
  else if bool_decide (compression_level = "high") then (400, 300)
  else (800, 600).

(** [d[key]] and [del d[key]] on an insertion-ordered dictionary. *)
Fixpoint dict_lookup (d : list (string * nat)) (key : string) : option nat :=
  match d with
  | [] => None
  | (k, v) :: d' => if bool_decide (k = key) then Some v else dict_lookup d' key
  end.

Fixpoint dict_del (d : list (string * nat)) (key : string)
  : list (string * nat) :=
  match d with
  | [] => []
  | (k, v) :: d' => if bool_decide (k = key) then d' else (k, v) :: dict_del d' key
  end.

(** [images_processed += 1]. *)
Definition incr_processed : M rw_state unit :=
  modify (fun s =>
    let n := images_processed s + 1 in
    RwState (st_heap s) n (images_compressed s) (writer_pages s)
            ((n, images_compressed s) :: counter_log s)).

(** [images_compressed += 1]. *)
Definition incr_compressed : M rw_state unit :=
  modify (fun s =>
    let n := images_compressed s + 1 in
    RwState (st_heap s) (images_processed s) n (writer_pages s)
            ((images_processed s, n) :: counter_log s)).

Definition set_heap (h : heap) : M rw_state unit :=
  modify (fun s =>
    RwState h (images_processed s) (images_compressed s) (writer_pages s)
            (counter_log s)).

(** [pdf_writer.add_page(page)]. *)
Definition add_page (p : page) : M rw_state unit :=
  modify (fun s =>
    RwState (st_heap s) (images_processed s) (images_compressed s)
            (writer_pages s ++ [p]) (counter_log s)).

(** [xobjects.keys()], [xobjects[obj_name]] and [del xobjects[obj_name]]
    through the reference [xo] held by the page. *)
Definition xobjects_keys (xo : nat) : M rw_state (list string) :=
  let* s := get in
  match dicts (st_heap s) !! xo with
  | Some d => ret (d.*1)
  | None => raise AttributeError
  end.

Definition xobjects_getitem (xo : nat) (obj_name : string)
  : M rw_state (nat * pyobj) :=
  let* s := get in
  match dicts (st_heap s) !! xo with
  | None => raise AttributeError
  | Some d =>
      match dict_lookup d obj_name with
      | None => raise KeyError
      | Some oid =>
          match objs (st_heap s) !! oid with
          | Some obj => ret (oid, obj)
          | None => ret (oid, PNonDict)
          end
      end
  end.

Definition xobjects_delitem (xo : nat) (obj_name : string) : M rw_state unit :=
  let* s := get in
  match dicts (st_heap s) !! xo with
  | None => raise AttributeError
  | Some d =>
      match dict_lookup d obj_name with
      | None => raise KeyError
      | Some _ =>
          set_heap (Heap (objs (st_heap s))
                         (<[xo := dict_del d obj_name]> (dicts (st_heap s))))
      end
  end.

(** The four assignments ([_data], [/Length], [/Filter], [/ColorSpace])
    and the three deletions that install the recompressed stream in the
    image object. *)
Definition install_jpeg (attrs : gmap string pyval) (compressed_data : bytes)
  : pyobj :=
  let attrs := <["/Length" := VNum (len compressed_data)]> attrs in
  let attrs := <["/Filter" := VName "/DCTDecode"]> attrs in
  let attrs := <["/ColorSpace" := VName "/DeviceRGB"]> attrs in
  let attrs := delete "/DecodeParms" attrs in
  let attrs := delete "/SMask" attrs in
  let attrs := delete "/Mask" attrs in
  PDict attrs (Some compressed_data).

Definition replace_image (oid : nat) (obj : pyobj) (compressed_data : bytes)
  : M rw_state unit :=
  match obj with
  | PNonDict => raise AttributeError
  | PDict attrs _ =>
      let* s := get in
      set_heap (Heap (<[oid := install_jpeg attrs compressed_data]>
                        (objs (st_heap s)))
                     (dicts (st_heap s)))
  end.

(** The body of the inner [try], for one image entry. *)
Definition image_body `{Zlib} `{Pillow} (remove_images : bool)
    (quality max_width max_height : Z)
    (xo : nat) (obj_name : string) (oid : nat) (obj : pyobj)
  : M rw_state unit :=
  incr_processed ;;
  if remove_images then xobjects_delitem xo obj_name
  else
    let image_data := decode_pdf_image obj in
    match image_data with
    | None => ret tt
    | Some _ =>
        let compressed_data :=
          compress_image image_data quality max_width max_height in
        match compressed_data with
        | Some cd =>
            if negb (bool_decide (compressed_data = image_data))
               && PIL_AVAILABLE
            then replace_image oid obj cd ;; incr_compressed
            else ret tt
        | None => ret tt
        end
    end.

(** The body of [for obj_name in list(xobjects.keys())]. *)
Definition entry_body `{Zlib} `{Pillow} (remove_images : bool)
    (quality max_width max_height : Z) (xo : nat) (obj_name : string)
  : M rw_state unit :=
  let* r := xobjects_getitem xo obj_name in
  let* subtype := lift (obj_get r.2 "/Subtype") in
  if bool_decide (subtype = Some (VName "/Image")) then
    try_except
      (image_body remove_images quality max_width max_height
                  xo obj_name r.1 r.2)
      (fun _ => ret tt)
  else ret tt.

(** The body of [for page_num in range(len(pdf_reader.pages))].  The
    test of the [if] stands outside the [try].  The handler of the outer
    [try] is [continue], which goes to the next page without reaching
    [pdf_writer.add_page(page)]. *)
Definition page_body `{Zlib} `{Pillow} (remove_images : bool)
    (quality max_width max_height : Z) (p : page) : M rw_state unit :=
  let* fall_through :=
    match page_resources p with
    | Unreadable => raise TypeError
    | XObject xo =>
        try_except
          (let* names := xobjects_keys xo in
           for_each names
             (entry_body remove_images quality max_width max_height xo) ;;
           ret true)
          (fun _ => ret false)
    | NoXObject => ret true
    end in
  if fall_through : bool then add_page p else ret tt.

(** The function itself.  [pages] is [pdf_reader.pages], which the loop
    reads at the indices [0 .. len - 1] in turn; [remove_images] is
    [args.remove_images], which the source reads from a global. *)
Definition extract_and_compress_images `{Zlib} `{Pillow}
    (remove_images : bool) (pages : list page) (compression_level : string)
  : M rw_state unit :=
  let quality := quality_map compression_level in
  let '(max_width, max_height) := size_map compression_level in
  for_each pages (page_body remove_images quality max_width max_height).

(* ===================================================================== *)
(** * [split_pdf_by_size]                                                  *)
(* ===================================================================== *)

(** What the splitter needs from PyPDF2, [pathlib] and the file system.
    [read_pdf path] is [open(path, 'rb')], [PdfReader(f)] and
    [len(reader.pages)] together: the page sequence of the file, or the
    exception one of them raises.  [written_size ps] is what
    [get_file_size] returns for a file just written by a [PdfWriter]
    holding the pages [ps]: the writer is deterministic, so the probe
    file and the chunk file of the same pages have the same size.
    Writing the probe and the chunks and removing files are taken to
    succeed. *)
Class PdfIO (P : Type) := {
  read_pdf : string -> res (list P);
  written_size : list P -> Z;
  path_stem : string -> string;
  path_suffix : string -> string
}.

(** A file written under a numbered name. *)
Record chunk_file (P : Type) : Type := ChunkFile {
  cf_number : Z;
  cf_name : string;
  cf_pages : list P
}.
Arguments ChunkFile {P} _ _ _.
Arguments cf_number {P} _.
Arguments cf_name {P} _.
Arguments cf_pages {P} _.

(** The last line the function prints. *)
Inductive split_message : Set :=
| CreatedChunks (n : Z)
| NoSplittingNeeded
| ErrorSplitting.

(** Local variables and effects of one call.  [temp_filename] is [None]
    while the local name is unbound, [Some None] once it holds Python's
    [None] and [Some (Some f)] once it holds a file name. *)
Record split_state (P : Type) : Type := SplitState {
  chunk_number : Z;
  pages_in_current_chunk : Z;
  temp_filename : option (option string);
  temp_on_disk : bool;
  written : list (chunk_file P);
  original_removed : bool;
  message : option split_message
}.
Arguments SplitState {P} _ _ _ _ _ _ _.
Arguments chunk_number {P} _.
Arguments pages_in_current_chunk {P} _.
Arguments temp_filename {P} _.
Arguments temp_on_disk {P} _.
Arguments written {P} _.
Arguments original_removed {P} _.
Arguments message {P} _.

Definition split_init {P} : split_state P :=
  SplitState 0 0 None false [] false None.

(** [f"{n:02d}"]. *)
Definition fmt_02d (n : Z) : string :=
  if (0 <=? n) && (n <? 10) then "0" +:+ pretty n else pretty n.

(** [test_size > size_bytes], an integer against a float. *)
Definition exceeds (test_size : Z) (size_bytes : Q) : bool :=
  negb (Qle_bool (inject_Z test_size) size_bytes).

Section SplitterDefs.
Context {P : Type} `{PdfIO P}.

Definition set_locals (cn pic : Z) : M (split_state P) unit :=
  modify (fun s =>
    SplitState cn pic (temp_filename s) (temp_on_disk s) (written s)
               (original_removed s) (message s)).

Definition set_temp (name : option (option string)) (on_disk : bool)
  : M (split_state P) unit :=
  modify (fun s =>
    SplitState (chunk_number s) (pages_in_current_chunk s) name on_disk
               (written s) (original_removed s) (message s)).

(** [with open(chunk_filename, 'wb') as f: chunk_writer.write(f)]. *)
Definition write_chunk (c : chunk_file P) : M (split_state P) unit :=
  modify (fun s =>
    SplitState (chunk_number s) (pages_in_current_chunk s)
               (temp_filename s) (temp_on_disk s) (written s ++ [c])
               (original_removed s) (message s)).

Definition print_message (m : split_message) : M (split_state P) unit :=
  modify (fun s =>
    SplitState (chunk_number s) (pages_in_current_chunk s)
               (temp_filename s) (temp_on_disk s) (written s)
               (original_removed s) (Some m)).

(** [os.remove(input_path)]. *)
Definition remove_original : M (split_state P) unit :=
  modify (fun s =>
    SplitState (chunk_number s) (pages_in_current_chunk s)
               (temp_filename s) (temp_on_disk s) (written s)
               true (message s)).

Definition chunk_filename (input_path : string) (n : Z) : string :=
  path_stem input_path +:+ "_part" +:+ fmt_02d n +:+ path_suffix input_path.

(** [for i in range(count): w.add_page(pdf_reader.pages[first + i])]. *)
Definition add_pages (pages : list P) (first count : Z) : res (list P) :=
  collect (range count) (fun i => index pages (first + i)).

(** [if temp_filename and os.path.exists(temp_filename): os.remove(..)];
    reading an unbound local raises. *)
Definition cleanup_temp : M (split_state P) unit :=
  let* s := get in
  match temp_filename s with
  | None => raise UnboundLocalError
  | Some name => set_temp (Some name) false
  end.

(** The body of [for page_number in range(total_pages)]. *)
Definition split_body (input_path : string) (size_bytes : Q)
    (pages : list P) (total_pages : Z) (page_number : Z)
  : M (split_state P) unit :=
  let* page := lift (index pages page_number) in
  let* s := get in
  let pic := pages_in_current_chunk s in
  let* test_pages := lift (add_pages pages (page_number - pic) pic) in
  let test_writer := test_pages ++ [page] in
  set_temp (Some (Some (path_stem input_path +:+ "_temp_chunk.pdf"))) true ;;
  let test_size := written_size test_writer in
  (if exceeds test_size size_bytes && (0 <? pic) then
     let* chunk_pages := lift (add_pages pages (page_number - pic) pic) in
     write_chunk (ChunkFile (chunk_number s)
                            (chunk_filename input_path (chunk_number s))
                            chunk_pages) ;;
     set_locals (chunk_number s + 1) 1
   else
     set_locals (chunk_number s) (pic + 1)) ;;
  (if page_number =? total_pages - 1 then
     let* s := get in
     let pic := pages_in_current_chunk s in
     let* chunk_pages :=
       lift (add_pages pages (page_number - pic + 1) pic) in
     write_chunk (ChunkFile (chunk_number s)
                            (chunk_filename input_path (chunk_number s))
                            chunk_pages)
   else ret tt) ;;
  cleanup_temp.

(** The [try] block. *)
Definition split_try (input_path : string) (size_bytes : Q)
  : M (split_state P) unit :=
  let* pages := lift (read_pdf input_path) in
  let total_pages := Z.of_nat (length pages) in
  set_locals 1 0 ;;
  set_temp (Some None) false ;;
  for_each (range total_pages)
           (split_body input_path size_bytes pages total_pages) ;;
  let* s := get in
  if 1 <? chunk_number s then
    remove_original ;;
    print_message (CreatedChunks (chunk_number s))
  else
    print_message NoSplittingNeeded.

(** The function: the [try] block under its [except Exception] clause,
    whose own body reads [temp_filename].  [size_mb] is a float, taken
    here at its exact rational value; multiplying it by [1024 * 1024] is
    exact, and Python compares an integer with a float exactly. *)
Definition split_pdf_by_size (input_path : string) (size_mb : Q)
  : M (split_state P) unit :=
  let size_bytes := (size_mb * 1024 * 1024)%Q in
  try_except
    (split_try input_path size_bytes)
    (fun _ => print_message ErrorSplitting ;; cleanup_temp).

Definition run_split (input_path : string) (size_mb : Q)
  : res unit * split_state P :=
  split_pdf_by_size input_path size_mb split_init.

End SplitterDefs.

(* ===================================================================== *)
(** * [compress_pdf]                                                       *)
(* ===================================================================== *)

(** A document as [PdfReader] presents it. *)
Record document : Type := Document {
  doc_pages : list page;
  doc_heap : heap
}.

(** The file system and PyPDF2 as [compress_pdf] uses them.  Writing the
    output changes what later reads see, so [write_pdf] returns the
    reading interface that holds afterwards. *)
Class Storage := {
  open_pdf : string -> res document;
  has_compress_identical_objects : bool;
  compress_identical_objects : document -> res document;
  write_pdf : string -> document -> res (PdfIO page)
}.

(** [bool(chunk_size)] for [None] or a float. *)
Definition truthy (chunk_size : option Q) : bool :=
  match chunk_size with
  | None => false
  | Some q => negb (Qeq_bool q 0)
  end.

(** [pdf_writer = PdfWriter()], the call of
    [extract_and_compress_images] and [pdf_writer.add_metadata({})]: the
    writer holds the pages added to it, over the object graph as the run
    left it. *)
Definition fill_writer `{Zlib} `{Pillow} (pdf_reader : document)
    (compression_level : string) (remove_images : bool) : res document :=
  let '(r, s) :=
    extract_and_compress_images remove_images (doc_pages pdf_reader)
      compression_level (init_state (doc_heap pdf_reader)) in
  let? _ := r in
  Ok (Document (writer_pages s) (st_heap s)).

(** [if hasattr(pdf_writer, 'compress_identical_objects'):
    pdf_writer.compress_identical_objects()]. *)
Definition dedup `{Storage} (pdf_writer : document) : res document :=
  if has_compress_identical_objects
  then compress_identical_objects pdf_writer
  else Ok pdf_writer.

(** The [try] block up to and including [pdf_writer.write(output_file)]:
    the input opens, the page loop and the deduplication return, and the
    output is written; the value is the file system seen afterwards. *)
Definition serialize `{Zlib} `{Pillow} `{Storage}
    (input_path output_path compression_level : string)
    (remove_images : bool) : res (PdfIO page) :=
  let? pdf_reader := open_pdf input_path in
  let? pdf_writer :=
    fill_writer pdf_reader compression_level remove_images in
  let? pdf_writer := dedup pdf_writer in
  write_pdf output_path pdf_writer.

(** The body of the [try] block; its value is the returned [True]. *)
Definition compress_try `{Zlib} `{Pillow} `{Storage}
    (input_path output_path compression_level : string)
    (remove_images : bool) (chunk_size : option Q) : res bool :=
  let? io :=
    serialize input_path output_path compression_level remove_images in
  let? _ :=
    (if truthy chunk_size then
       (@run_split page io output_path (default 0%Q chunk_size)).1
     else Ok tt) in
  Ok true.

Definition compress_pdf `{Zlib} `{Pillow} `{Storage}
    (input_path output_path compression_level : string)
    (remove_images : bool) (chunk_size : option Q) : res bool :=
  rtry
    (compress_try input_path output_path compression_level
                  remove_images chunk_size)
    (fun _ => Ok false).

(* ===================================================================== *)
(** * Sample capabilities                                                 *)
(* ===================================================================== *)

(** Small instances of the interfaces, on which the model can be run.
    They are passed explicitly and never found by instance search. *)

(** Inflating drops the first byte of a stream and fails on an empty one. *)
Definition sample_zlib : Zlib :=
  {| zlib_decompress := fun b =>
       match b with
       | [] => None
       | _ :: b' => Some b'
       end |}.

(** A codec whose images are their own bytes: opening fails on an empty
    input, every image is in mode RGB, and encoding keeps one byte. *)
Definition sample_pillow : Pillow :=
  {| PIL_AVAILABLE := true;
     image := bytes;
     Image_open := fun b =>
       match b with
       | [] => Raise CodecError
       | _ => Ok b
       end;
     image_mode := fun _ => "RGB";
     image_size := fun _ => (1, 1);
     Image_new_RGB := fun _ => Ok [];
     image_convert := fun img _ => Ok img;
     image_split_last := fun img => Ok img;
     image_paste := fun _ img _ => Ok img;
     image_thumbnail := fun img _ => Ok img;
     image_save_jpeg := fun img _ => Ok (take 1 img) |}.

(** Pages that are their own size in bytes; a written file holds a
    100-byte envelope and its pages.  [doc] is what reading gives. *)
Definition sample_io (doc : res (list Z)) : PdfIO Z :=
  {| read_pdf := fun _ => doc;
     written_size := fun ps => 100 + foldr Z.add 0 ps;
     path_stem := fun _ => "doc";
     path_suffix := fun _ => ".pdf" |}.

(** A heap with one XObject dictionary, number 0, holding three entries:
    a Flate-then-JPEG image, a Flate-then-JPEG-2000 image and an entry that is not a
    dictionary. *)
Definition sample_heap : heap :=
  Heap
    (<[1%nat := PDict (<["/Subtype" := VName "/Image"]>
                       (<["/Filter" := VArray ["/FlateDecode"; "/DCTDecode"]]> ∅))
                      (Some [Byte.x00; Byte.x01; Byte.x02; Byte.x03])]>
     (<[2%nat := PDict (<["/Subtype" := VName "/Image"]>
                        (<["/Filter" := VArray ["/FlateDecode"; "/JPXDecode"]]>
                           ∅))
                       (Some [Byte.x0a; Byte.x0b])]>
      (<[3%nat := PNonDict]> ∅)))
    (<[0%nat := [("/Im1", 1%nat); ("/Im2", 2%nat)]]>
     (<[5%nat := [("/Im1", 1%nat); ("/Bad", 3%nat)]]> ∅)).

(** Three pages: the first and the third use dictionary 0, the second
    uses dictionary 5, whose entry ["/Bad"] is not a dictionary. *)
Definition sample_pages : list page :=
  [Page 0 (XObject 0); Page 1 (XObject 5); Page 2 (XObject 0)].

(** The store and PyPDF2 seen from [compress_pdf]: every input path
    holds the sample document, every write succeeds, and the file just
    written can be read back or not ([/dev/null] takes a write and reads
    back empty). *)
Definition sample_storage (readable_output : bool) : Storage :=
  {| open_pdf := fun _ => Ok (Document sample_pages sample_heap);
     has_compress_identical_objects := true;
     compress_identical_objects := fun d => Ok d;
     write_pdf := fun _ d =>
       Ok {| read_pdf := fun _ =>
               if readable_output then Ok (doc_pages d)
               else Raise PdfReadError;
             written_size := fun ps => 100 + 40 * Z.of_nat (length ps);
             path_stem := fun _ => "out";
             path_suffix := fun _ => ".pdf" |} |}.

(* ===================================================================== *)
(** * Notions used to state the properties                                *)
(* ===================================================================== *)

(** A filter name that does not end the decoding loop. *)
Definition passes_on (filter_name : string) : Prop :=
  select_arm filter_name = ArmFlate \/ select_arm filter_name = ArmIgnored.

(** The payload after the FlateDecode stages among [stages] have been
    inverted in order, the other stages being left alone; [None] when one
    of the inversions fails. *)
Fixpoint inflate_stages `{Zlib} (stages : list string) (data : bytes)
  : option bytes :=
  match stages with
  | [] => Some data
  | f :: stages' =>
      match select_arm f with
      | ArmFlate =>
          match zlib_decompress data with
          | Some data' => inflate_stages stages' data'
          | None => None
          end
      | _ => inflate_stages stages' data
      end
  end.

(** The number of entries held by all XObject dictionaries of a heap. *)
Definition total_entries (h : heap) : nat :=
  sum_list_with (fun kd => length kd.2) (map_to_list (dicts h)).

(** What holds all along a run under [--remove-images]: nothing is ever
    counted as compressed, and each image counted is an entry deleted. *)
Definition removal_ok (total : Z) (s : rw_state) : Prop :=
  images_compressed s = 0 /\
  Forall (fun pc => pc.2 = 0) (counter_log s) /\
  images_processed s + Z.of_nat (total_entries (st_heap s)) = total.

(** A state invariant kept by a computation, whether it returns or
    raises. *)
Definition preserves {S A} (I : S -> Prop) (m : M S A) : Prop :=
  forall s, I s -> I (m s).2.

(** The counters' invariant, on the current values and on every value
    they took. *)
Definition counters_ok (s : rw_state) : Prop :=
  0 <= images_compressed s <= images_processed s /\
  Forall (fun pc => 0 <= pc.2 <= pc.1) (counter_log s).

(** An entry that resolves to a dictionary-like object. *)
Definition resolves (h : heap) (oid : nat) : Prop :=
  exists attrs data, objs h !! oid = Some (PDict attrs data).

(** An XObject dictionary without duplicate keys, whose entries all
    resolve. *)
Definition wf_dict (h : heap) (d : list (string * nat)) : Prop :=
  NoDup d.*1 /\
  forall name oid, dict_lookup d name = Some oid -> resolves h oid.

(** A page whose resources can be tested, and whose XObject entry, when
    it has one, is a dictionary of the store. *)
Definition page_ok (h : heap) (p : page) : Prop :=
  match page_resources p with
  | NoXObject => True
  | XObject xo => is_Some (dicts h !! xo)
  | Unreadable => False
  end.

(** A document on which no statement of the page loop can raise outside
    the inner [try]. *)
Definition well_formed (h : heap) (pages : list page) : Prop :=
  (forall xo d, dicts h !! xo = Some d -> wf_dict h d) /\
  Forall (page_ok h) pages.

(** The pages of a chunk list, end to end. *)
Definition chunk_pages_concat {P} (cs : list (chunk_file P)) : list P :=
  concat (cf_pages <$> cs).

Section SplitterNotions.
Context {P : Type} `{PdfIO P}.

(** A written chunk is acceptable: it holds a page, and it fits the
    budget unless it holds exactly one page. *)
Definition chunk_ok (size_bytes : Q) (c : chunk_file P) : Prop :=
  cf_pages c <> [] /\
  (exceeds (written_size (cf_pages c)) size_bytes = false \/
   length (cf_pages c) = 1%nat).

(** The chunks are numbered 1, 2, ... in the order they were written,
    and named after their numbers. *)
Definition numbered (input_path : string) (cs : list (chunk_file P))
  : Prop :=
  forall i c, cs !! i = Some c ->
    cf_number c = Z.of_nat (S i) /\
    cf_name c = chunk_filename input_path (Z.of_nat (S i)).

(** Every tentative file the loop measures fits when each prefix of the
    document does. *)
Definition prefixes_fit (size_bytes : Q) (pages : list P) : Prop :=
  forall j, (0 < j <= length pages)%nat ->
    exceeds (written_size (take j pages)) size_bytes = false.

(** The chunk being accumulated after [k] pages, [pic] pages long. *)
Definition current_chunk (pages : list P) (k pic : nat) : list P :=
  take pic (drop (k - pic) pages).

(** The state of the loop of [split_pdf_by_size] after [k] pages of a
    non-empty document; [closed] are the chunks written when a page
    was rejected. *)
Definition split_inv (input_path : string) (size_bytes : Q)
    (pages : list P) (k : nat) (s : split_state P) : Prop :=
  exists (pic : nat) (closed : list (chunk_file P)),
    pages_in_current_chunk s = Z.of_nat pic /\
    (pic <= k)%nat /\
    ((0 < k)%nat -> (0 < pic)%nat) /\
    chunk_number s = Z.of_nat (S (length closed)) /\
    chunk_pages_concat closed = take (k - pic) pages /\
    Forall (chunk_ok size_bytes) closed /\
    numbered input_path closed /\
    ((pic <= 1)%nat \/
     exceeds (written_size (current_chunk pages k pic)) size_bytes = false) /\
    (prefixes_fit size_bytes pages -> closed = []) /\
    written s =
      closed ++
      (if decide (k = length pages) then
         [ChunkFile (chunk_number s)
                    (chunk_filename input_path (chunk_number s))
                    (current_chunk pages k pic)]
       else []) /\
    is_Some (temp_filename s) /\
    original_removed s = false /\
    message s = None.

(** What a call that could read its input leaves behind. *)
Definition split_post (input_path : string) (size_bytes : Q)
    (pages : list P) (s : split_state P) : Prop :=
  chunk_pages_concat (written s) = pages /\
  Forall (chunk_ok size_bytes) (written s) /\
  numbered input_path (written s) /\
  (pages = [] -> written s = []) /\
  (prefixes_fit size_bytes pages -> (length (written s) <= 1)%nat) /\
  original_removed s = bool_decide (1 < length (written s))%nat /\
  message s =
    Some (if bool_decide (1 < length (written s))%nat
          then CreatedChunks (Z.of_nat (length (written s)))
          else NoSplittingNeeded).

End SplitterNotions.

(* ===================================================================== *)
(** * [format_file_size]                                                   *)
(* ===================================================================== *)

(** [size_bytes] starts as an integer and becomes a float at the first
    division.  Below [2 ^ 53] the conversion is exact, and so is every
    division by [1024.0]; the value is kept here as the rational it
    is. *)

Definition size_names : list string := ["B"; "KB"; "MB"; "GB"].

(** The nearest integer, halves going to the even neighbour. *)
Definition round_half_even (q : Q) : Z :=
  let n := Qnum q in
  let d := Zpos (Qden q) in
  let fl := n / d in
  let r := n mod d in
  if 2 * r <? d then fl
  else if d <? 2 * r then fl + 1
  else if Z.even fl then fl else fl + 1.

(** [f"{x:.2f}"]: the decimal with two places nearest to the exact
    value of [x]. *)
Definition fmt_2f (x : Q) : string :=
  let c := round_half_even ((Z.abs (Qnum x) # Qden x) * 100)%Q in
  (if Qnum x <? 0 then "-" else "") +:+
  pretty (c / 100) +:+ "." +:+ fmt_02d (c mod 100).

(** [while size_bytes >= 1024 and i < len(size_names) - 1]; [fuel]
    bounds the number of turns. *)
Fixpoint scale_loop (fuel : nat) (size_bytes : Q) (i : Z) : Q * Z :=
  match fuel with
  | O => (size_bytes, i)
  | S fuel' =>
      if Qle_bool 1024 size_bytes && (i <? Z.of_nat (length size_names) - 1)
      then scale_loop fuel' (size_bytes / 1024) (i + 1)
      else (size_bytes, i)
  end.

Definition format_file_size (size_bytes : Z) : res string :=
  if size_bytes =? 0 then Ok "0B"
  else
    let '(x, i) :=
      scale_loop (length size_names) (inject_Z size_bytes) 0 in
    let? name := index size_names i in
    Ok (fmt_2f x +:+ name).

(* ===================================================================== *)
(** * Further samples and notions                                         *)
(* ===================================================================== *)

(** The sample heap without the dictionary that holds the bad entry. *)
Definition sample_heap_ok : heap :=
  Heap (objs sample_heap)
       (<[0%nat := [("/Im1", 1%nat); ("/Im2", 2%nat)]]> ∅).

Definition sample_pages_ok : list page :=
  [Page 0 (XObject 0); Page 1 NoXObject; Page 2 (XObject 0)].

(** The sample codec with Pillow missing. *)
Definition sample_pillow_off : Pillow :=
  {| PIL_AVAILABLE := false;
     image := bytes;
     Image_open := fun b => Ok b;
     image_mode := fun _ => "RGB";
     image_size := fun _ => (1, 1);
     Image_new_RGB := fun _ => Ok [];
     image_convert := fun img _ => Ok img;
     image_split_last := fun img => Ok img;
     image_paste := fun _ img _ => Ok img;
     image_thumbnail := fun img _ => Ok img;
     image_save_jpeg := fun img _ => Ok (take 1 img) |}.

(** A store in which every input path holds the document [d]. *)
Definition sample_storage_of (d : document) : Storage :=
  {| open_pdf := fun _ => Ok d;
     has_compress_identical_objects := false;
     compress_identical_objects := fun w => Ok w;
     write_pdf := fun _ w =>
       Ok {| read_pdf := fun _ => Ok (doc_pages w);
             written_size := fun ps => 100 + 40 * Z.of_nat (length ps);
             path_stem := fun _ => "out";
             path_suffix := fun _ => ".pdf" |} |}.



(** An image object as [extract_and_compress_images] leaves it after a
    replacement: a JPEG stream whose attributes agree with its payload. *)
Definition jpeg_installed (o : pyobj) : Prop :=
  exists attrs cd,
    o = PDict attrs (Some cd) /\
    attrs !! "/Length" = Some (VNum (len cd)) /\
    attrs !! "/Filter" = Some (VName "/DCTDecode") /\
    attrs !! "/ColorSpace" = Some (VName "/DeviceRGB") /\
    attrs !! "/DecodeParms" = None /\
    attrs !! "/SMask" = None /\
    attrs !! "/Mask" = None.

Definition unreadable (p : page) : Prop := page_resources p = Unreadable.



Section GreedyNotion.
Context {P : Type} `{PdfIO P}.

(** The greedy partition, as a function on the page list: [cur] is the
    chunk being filled, closed when it holds a page and taking the next
    one would exceed the budget. *)
Fixpoint greedy_from (size_bytes : Q) (cur rest : list P) : list (list P) :=
  match rest with
  | [] =>
      match cur with
      | [] => []
      | _ => [cur]
      end
  | x :: rest' =>
      if exceeds (written_size (cur ++ [x])) size_bytes
         && match cur with [] => false | _ => true end
      then cur :: greedy_from size_bytes [x] rest'
      else greedy_from size_bytes (cur ++ [x]) rest'
  end.

(** The state of the loop after [k] pages, as far as the greedy
    partition and the probe file go. *)
Definition greedy_inv (size_bytes : Q) (pages : list P) (k : nat)
    (s : split_state P) : Prop :=
  exists (pic : nat) (closed : list (list P)),
    pages_in_current_chunk s = Z.of_nat pic /\
    (pic <= k)%nat /\
    ((0 < k)%nat -> (0 < pic)%nat) /\
    closed ++ greedy_from size_bytes (current_chunk pages k pic)
                          (drop k pages)
      = greedy_from size_bytes [] pages /\
    cf_pages <$> written s =
      closed ++ (if decide (k = length pages)
                 then [current_chunk pages k pic] else []) /\
    is_Some (temp_filename s) /\
    temp_on_disk s = false.

End GreedyNotion.

(* ===================================================================== *)
(** * Control-flow lemmas                                                 *)
(* ===================================================================== *)

Section Preserves.
Context {S : Type} (I : S -> Prop).

Lemma preserves_ret {A} (a : A) : preserves I (ret a).
Proof. by intros s Hs. Qed.

Lemma preserves_raise {A} e : preserves I (@raise S A e).
Proof. by intros s Hs. Qed.

Lemma preserves_lift {A} (r : res A) : preserves I (lift r).
Proof. by intros s Hs. Qed.

Lemma preserves_get : preserves I get.
Proof. by intros s Hs. Qed.

Lemma preserves_modify (f : S -> S) :
  (forall s, I s -> I (f s)) -> preserves I (modify f).
Proof. intros Hf s Hs. by apply Hf. Qed.

Lemma preserves_bind {A B} (m : M S A) (k : A -> M S B) :
  preserves I m -> (forall a, preserves I (k a)) -> preserves I (bind m k).
Proof.
  intros Hm Hk s Hs. unfold bind. specialize (Hm s Hs).
  destruct (m s) as [[a|e] s']; simpl in *; [by apply Hk | done].
Qed.

Lemma preserves_try {A} (m : M S A) (h : exn -> M S A) :
  preserves I m -> (forall e, preserves I (h e)) ->
  preserves I (try_except m h).
Proof.
  intros Hm Hh s Hs. unfold try_except. specialize (Hm s Hs).
  destruct (m s) as [[a|e] s']; simpl in *; [done | by apply Hh].
Qed.

Lemma preserves_for_each {A} (l : list A) (body : A -> M S unit) :
  (forall x, preserves I (body x)) -> preserves I (for_each l body).
Proof.
  intros Hbody. induction l as [|x l IH]; simpl.
  - apply preserves_ret.
  - apply preserves_bind; [apply Hbody | intros _; apply IH].
Qed.

End Preserves.

(* ===================================================================== *)
(** * Facts about [decode_pdf_image]                                       *)
(* ===================================================================== *)

Section DecodeFacts.
Context `{Zlib}.

(** Decoding a chain whose first stages all pass on amounts to
    inflating those stages and decoding the rest. *)
Lemma decode_loop_app (pre rest : list string) (data : bytes) :
  Forall passes_on pre ->
  decode_loop (pre ++ rest) data =
    match inflate_stages pre data with
    | Some data' => decode_loop rest data'
    | None => Raise ZlibError
    end.
Proof.
  intros Hpre. revert data.
  induction Hpre as [|f pre [Hf|Hf] _ IH]; intros data; simpl.
  - done.
  - rewrite Hf. destruct (zlib_decompress data); [apply IH | done].
  - rewrite Hf. apply IH.
Qed.

Lemma decode_pdf_image_filtered attrs data v :
  attrs !! "/Filter" = Some v ->
  decode_pdf_image (PDict attrs (Some data)) =
    match decode_loop (filter_names v) data with
    | Ok r => r
    | Raise _ => None
    end.
Proof. intros Hv. unfold decode_pdf_image. simpl. by rewrite Hv. Qed.

Lemma decode_pdf_image_no_data attrs :
  decode_pdf_image (PDict attrs None) = None.
Proof.
  unfold decode_pdf_image. simpl. by destruct (attrs !! "/Filter").
Qed.

(** C7.  When the filter chain of an image is [pre ++ f :: post], the
    stages of [pre] all pass on, [f] selects the DCTDecode arm and the
    FlateDecode stages of [pre] inflate the payload to [payload], then
    [decode_pdf_image] returns [payload], whatever [post] holds. *)
Theorem decode_dct_passthrough attrs data v pre f post payload :
  attrs !! "/Filter" = Some v ->
  filter_names v = pre ++ f :: post ->
  Forall passes_on pre ->
  select_arm f = ArmDCT ->
  inflate_stages pre data = Some payload ->
  decode_pdf_image (PDict attrs (Some data)) = Some payload.
Proof.
  intros Hv Hchain Hpre Hf Hinfl.
  rewrite (decode_pdf_image_filtered _ _ _ Hv), Hchain.
  rewrite decode_loop_app by done. rewrite Hinfl. simpl. by rewrite Hf.
Qed.

Lemma decode_unsupported attrs data v pre f post :
  attrs !! "/Filter" = Some v ->
  filter_names v = pre ++ f :: post ->
  Forall passes_on pre ->
  select_arm f = ArmUnsupported ->
  decode_pdf_image (PDict attrs data) = None.
Proof.
  intros Hv Hchain Hpre Hf. destruct data as [data|].
  - rewrite (decode_pdf_image_filtered _ _ _ Hv), Hchain.
    rewrite decode_loop_app by done.
    destruct (inflate_stages pre data); [|done]. simpl. by rewrite Hf.
  - apply decode_pdf_image_no_data.
Qed.

End DecodeFacts.

(* ===================================================================== *)
(** * Facts about [compress_image]                                         *)
(* ===================================================================== *)

Section CompressFacts.
Context `{Pillow}.

(** C5.  [compress_image] returns its input unchanged or bytes strictly
    shorter than it; the result is never longer than the input; and the
    input comes back as it is when Pillow is missing, when the input is
    [None] and when anything between [Image.open] and the encoding
    raises. *)
Theorem compress_image_never_expands
    (image_data : option bytes) (quality max_width max_height : Z) :
  let r := compress_image image_data quality max_width max_height in
  (r = image_data \/
   exists d c, image_data = Some d /\ r = Some c /\ len c < len d) /\
  (match r, image_data with
   | Some c, Some d => len c <= len d
   | None, None => True
   | _, _ => False
   end) /\
  (PIL_AVAILABLE = false -> r = image_data) /\
  (image_data = None -> r = None) /\
  (forall d e, image_data = Some d ->
     encode_jpeg d quality max_width max_height = Raise e ->
     r = image_data).
Proof.
  unfold compress_image. destruct image_data as [d|].
  - destruct PIL_AVAILABLE; simpl.
    + destruct (encode_jpeg d quality max_width max_height) as [c|e] eqn:He.
      * destruct (len c <? len d) eqn:Hlt.
        -- apply Z.ltb_lt in Hlt.
           split; [right; eauto|]. repeat split; [lia | intros; congruence..].
        -- split; [by left|]. repeat split; [lia | intros; congruence..].
      * split; [by left|]. repeat split; [lia | intros; congruence..].
    + split; [by left|]. repeat split; [lia | intros; congruence..].
  - destruct (negb PIL_AVAILABLE); simpl; repeat split; auto.
Qed.

End CompressFacts.

(* ===================================================================== *)
(** * Facts about [extract_and_compress_images]                            *)
(* ===================================================================== *)

(** Unfolds the state monad at the head of a goal about one run. *)
Ltac unfold_M :=
  unfold bind, try_except, ret, raise, lift, get, modify in *.

Section RewriterFacts.
Context `{Zlib} `{Pillow}.

(** ** The frame of an image that does not decode *)

Lemma image_body_frame (oid : nat) (o : pyobj)
    remove quality mw mh xo name oid' obj (s : rw_state) :
  decode_pdf_image o = None ->
  objs (st_heap s) !! oid = Some o ->
  objs (st_heap s) !! oid' = Some obj \/ obj = PNonDict ->
  objs (st_heap (image_body remove quality mw mh xo name oid' obj s).2)
    !! oid = Some o.
Proof.
  intros Hdec Hs Hobj.
  unfold image_body, incr_processed, incr_compressed, xobjects_delitem,
    replace_image, set_heap.
  unfold_M. simpl.
  destruct remove.
  - repeat case_match; simplify_eq/=; done.
  - destruct (decode_pdf_image obj) as [d|] eqn:Hd; [|done].
    assert (oid' <> oid) as Hne.
    { intros ->. destruct Hobj as [Hobj| ->]; [|done]. congruence. }
    repeat case_match; simplify_eq/=; try done.
    all: by rewrite lookup_insert_ne.
Qed.

Lemma entry_body_frame (oid : nat) (o : pyobj)
    remove quality mw mh xo name :
  decode_pdf_image o = None ->
  preserves (fun s => objs (st_heap s) !! oid = Some o)
            (entry_body remove quality mw mh xo name).
Proof.
  intros Hdec s Hs. unfold entry_body, xobjects_getitem.
  unfold_M. simpl.
  destruct (dicts (st_heap s) !! xo) as [d|]; [|done].
  destruct (dict_lookup d name) as [oid'|]; [|done].
  destruct (objs (st_heap s) !! oid') as [obj|] eqn:Hobj; simpl.
  - destruct (obj_get obj "/Subtype") as [subtype|]; [|done].
    case_bool_decide; [|done].
    pose proof (image_body_frame oid o remove quality mw mh xo name
                  oid' obj s Hdec Hs (or_introl Hobj)) as Hframe.
    by destruct (image_body _ _ _ _ _ _ _ _ s) as [[?|?] ?].
  - done.
Qed.

Lemma page_body_preserves (I : rw_state -> Prop)
    remove quality mw mh p :
  (forall xo name, preserves I (entry_body remove quality mw mh xo name)) ->
  preserves I (add_page p) ->
  preserves I (page_body remove quality mw mh p).
Proof.
  intros Hentry Hadd. unfold page_body.
  apply preserves_bind.
  - destruct (page_resources p) as [|xo|];
      [apply preserves_ret | | apply preserves_raise].
    apply preserves_try; [|intros; apply preserves_ret].
    apply preserves_bind.
    + unfold xobjects_keys. apply preserves_bind; [apply preserves_get|].
      intros s'. destruct (dicts (st_heap s') !! xo);
        [apply preserves_ret | apply preserves_raise].
    + intros names. apply preserves_bind; [|intros; apply preserves_ret].
      apply preserves_for_each. intros name. apply Hentry.
  - intros [|]; [apply Hadd | apply preserves_ret].
Qed.

Lemma extract_preserves (I : rw_state -> Prop) remove pages level :
  (forall quality mw mh xo name,
      preserves I (entry_body remove quality mw mh xo name)) ->
  (forall p, preserves I (add_page p)) ->
  preserves I (extract_and_compress_images remove pages level).
Proof.
  intros Hentry Hadd. unfold extract_and_compress_images.
  destruct (size_map level) as [mw mh].
  apply preserves_for_each. intros p.
  apply page_body_preserves; [intros; apply Hentry | apply Hadd].
Qed.

(** ** The counters *)

Lemma dict_del_length d name oid :
  dict_lookup d name = Some oid ->
  S (length (dict_del d name)) = length d.
Proof.
  induction d as [|[k v] d IH]; simpl; [done|].
  case_bool_decide; [done|]. intros Hl. simpl. by rewrite IH.
Qed.

Lemma total_entries_del h xo d name oid :
  dicts h !! xo = Some d ->
  dict_lookup d name = Some oid ->
  S (total_entries (Heap (objs h) (<[xo := dict_del d name]> (dicts h))))
  = total_entries h.
Proof.
  intros Hd Hl. unfold total_entries. simpl.
  rewrite <- (map_to_list_delete _ _ _ Hd).
  rewrite <- insert_delete_eq.
  rewrite map_to_list_insert by apply lookup_delete_eq.
  simpl. rewrite <- (dict_del_length _ _ _ Hl). lia.
Qed.

Lemma entry_body_counters remove quality mw mh xo name :
  preserves counters_ok (entry_body remove quality mw mh xo name).
Proof.
  intros s [Hc Hlog].
  unfold entry_body, xobjects_getitem, image_body, incr_processed,
    incr_compressed, xobjects_delitem, replace_image, set_heap.
  unfold_M. simpl.
  repeat case_match; simplify_eq/=; unfold counters_ok; simpl;
    (split; [lia | repeat (constructor; simpl; [lia|]); done]).
Qed.

Lemma entry_body_removal total quality mw mh xo name :
  preserves (removal_ok total) (entry_body true quality mw mh xo name).
Proof.
  intros s (Hc & Hlog & Htot).
  unfold entry_body, xobjects_getitem, image_body, incr_processed,
    xobjects_delitem, set_heap.
  unfold_M. simpl.
  destruct (dicts (st_heap s) !! xo) as [d|] eqn:Hd; [|done].
  destruct (dict_lookup d name) as [oid|] eqn:Hl; [|done].
  assert (forall obj,
    removal_ok total
      ((let* subtype := lift (obj_get obj "/Subtype") in
        if bool_decide (subtype = Some (VName "/Image")) then
          try_except
            (image_body true quality mw mh xo name oid obj)
            (fun _ => ret tt)
        else ret tt) s).2) as Hgoal.
  { intros obj.
    unfold image_body, incr_processed, xobjects_delitem, set_heap.
    unfold_M. simpl.
    destruct (obj_get obj "/Subtype") as [subtype|]; simpl; [|done].
    case_bool_decide; simpl; [|done].
    rewrite Hd, Hl. simpl. unfold removal_ok. simpl.
    split; [done|]. split; [by constructor|].
    pose proof (total_entries_del (st_heap s) xo d name oid Hd Hl).
    lia. }
  destruct (objs (st_heap s) !! oid) as [obj|]; apply Hgoal.
Qed.

Lemma add_page_counters p : preserves counters_ok (add_page p).
Proof. by intros s Hs. Qed.

Lemma add_page_removal total p : preserves (removal_ok total) (add_page p).
Proof. by intros s Hs. Qed.

(** C10.  Started with both counters at zero, a run of
    [extract_and_compress_images] ends with
    [0 <= images_compressed <= images_processed], and so does every
    pair of values the counters took on the way.  Under
    [--remove-images], [images_compressed] is 0 at the end and was 0
    all along, while [images_processed] is exactly the number of
    entries the run deleted from the XObject dictionaries. *)
Theorem counters_invariant (h : heap) (pages : list page) (level : string)
    (remove : bool) :
  counters_ok
    (extract_and_compress_images remove pages level (init_state h)).2 /\
  let t := (extract_and_compress_images true pages level (init_state h)).2 in
  images_compressed t = 0 /\
  Forall (fun pc => pc.2 = 0) (counter_log t) /\
  images_processed t + Z.of_nat (total_entries (st_heap t))
    = Z.of_nat (total_entries h).
Proof.
  split.
  - apply extract_preserves.
    + intros. apply entry_body_counters.
    + apply add_page_counters.
    + unfold counters_ok, init_state. simpl. split; [lia | constructor].
  - apply (extract_preserves (removal_ok (Z.of_nat (total_entries h)))).
    + intros. apply entry_body_removal.
    + apply add_page_removal.
    + unfold removal_ok, init_state. simpl. repeat split; first [constructor | lia].
Qed.

(** ** Well-formed documents keep all their pages *)

Lemma dict_lookup_in (d : list (string * nat)) name :
  name ∈ d.*1 -> is_Some (dict_lookup d name).
Proof.
  induction d as [|[k v] d IH]; simpl; [by intros ?%elem_of_nil|].
  intros Hin. case_bool_decide as Hk; [by eexists|].
  apply elem_of_cons in Hin as [->|Hin]; [done | by apply IH].
Qed.

Lemma dict_lookup_notin (d : list (string * nat)) name :
  name ∉ d.*1 -> dict_lookup d name = None.
Proof.
  induction d as [|[k v] d IH]; simpl; [done|].
  intros Hin. apply not_elem_of_cons in Hin as [Hne Hin].
  rewrite bool_decide_eq_false_2 by done. by apply IH.
Qed.

Lemma dict_del_notin (d : list (string * nat)) name k :
  k ∉ d.*1 -> k ∉ (dict_del d name).*1.
Proof.
  induction d as [|[k' v] d IH]; simpl; [done|].
  intros Hin. apply not_elem_of_cons in Hin as [Hne Hin].
  case_bool_decide; [done|]. simpl. apply not_elem_of_cons. auto.
Qed.

Lemma dict_del_NoDup (d : list (string * nat)) name :
  NoDup d.*1 -> NoDup (dict_del d name).*1.
Proof.
  induction d as [|[k v] d IH]; simpl; [done|].
  intros [Hk Hd]%NoDup_cons. case_bool_decide; [done|]. simpl.
  apply NoDup_cons. split; [by apply dict_del_notin | by apply IH].
Qed.

Lemma dict_lookup_del_ne (d : list (string * nat)) name name' :
  name' <> name -> dict_lookup (dict_del d name) name' = dict_lookup d name'.
Proof.
  intros Hne. induction d as [|[k v] d IH]; simpl; [done|].
  case_bool_decide as Hk; simpl.
  - subst k. by rewrite bool_decide_eq_false_2 by done.
  - by rewrite IH.
Qed.

Lemma dict_lookup_del_eq (d : list (string * nat)) name :
  NoDup d.*1 -> dict_lookup (dict_del d name) name = None.
Proof.
  induction d as [|[k v] d IH]; simpl; [done|].
  intros [Hk Hd]%NoDup_cons. case_bool_decide as Hkn; simpl.
  - subst k. by apply dict_lookup_notin.
  - rewrite bool_decide_eq_false_2 by done. by apply IH.
Qed.

Lemma well_formed_del h pages xo d name :
  well_formed h pages ->
  dicts h !! xo = Some d ->
  well_formed (Heap (objs h) (<[xo := dict_del d name]> (dicts h))) pages.
Proof.
  intros [Hwf Hpages] Hd. split; simpl.
  - intros xo' d' Hd'. destruct (decide (xo = xo')) as [<-|Hne].
    + rewrite lookup_insert_eq in Hd'. simplify_eq.
      destruct (Hwf xo d Hd) as [Hnd Hres]. split.
      * by apply dict_del_NoDup.
      * intros name' oid Hl. destruct (decide (name' = name)) as [->|Hn].
        -- by rewrite dict_lookup_del_eq in Hl.
        -- rewrite dict_lookup_del_ne in Hl by done. by apply (Hres name').
    + rewrite lookup_insert_ne in Hd' by done.
      destruct (Hwf xo' d' Hd') as [Hnd Hres]. by split.
  - eapply Forall_impl; [exact Hpages|]. intros p. unfold page_ok. simpl.
    destruct (page_resources p) as [|xo'|]; try done.
    intros Hsome. destruct (decide (xo = xo')) as [<-|Hne].
    + by rewrite lookup_insert_eq.
    + by rewrite lookup_insert_ne.
Qed.

Lemma well_formed_install h pages oid attrs data :
  well_formed h pages ->
  well_formed (Heap (<[oid := PDict attrs data]> (objs h)) (dicts h)) pages.
Proof.
  intros [Hwf Hpages]. split; simpl; [|done].
  intros xo d Hd. destruct (Hwf xo d Hd) as [Hnd Hres]. split; [done|].
  intros name oid' Hl. destruct (Hres name oid' Hl) as (a & b & Hobj).
  unfold resolves. simpl. destruct (decide (oid = oid')) as [<-|Hne].
  - rewrite lookup_insert_eq. eauto.
  - rewrite lookup_insert_ne by done. eauto.
Qed.

(** On a well-formed document one entry is processed without an
    exception reaching the outer [try]: failures of zlib and of the
    codec stay inside [decode_pdf_image] and [compress_image]. *)
Lemma entry_body_ok remove quality mw mh xo name pages s d :
  well_formed (st_heap s) pages ->
  dicts (st_heap s) !! xo = Some d ->
  is_Some (dict_lookup d name) ->
  exists s',
    entry_body remove quality mw mh xo name s = (Ok tt, s') /\
    well_formed (st_heap s') pages /\
    writer_pages s' = writer_pages s /\
    (dicts (st_heap s') !! xo = Some d \/
     dicts (st_heap s') !! xo = Some (dict_del d name)).
Proof.
  intros Hwf Hd [oid Hl].
  destruct (proj1 Hwf xo d Hd) as [_ Hres].
  destruct (Hres name oid Hl) as (attrs & data & Hobj).
  destruct s as [h np nc w log]. simpl in *.
  unfold entry_body, xobjects_getitem. unfold_M. simpl.
  rewrite Hd, Hl, Hobj. simpl.
  case_bool_decide as Himg; [|eexists; split_and!; eauto].
  unfold image_body, incr_processed, incr_compressed, xobjects_delitem,
    replace_image, set_heap.
  unfold_M. simpl. destruct remove; simpl.
  - rewrite Hd, Hl. simpl. eexists. split_and!; [done| |done|].
    + by apply well_formed_del.
    + right. simpl. by rewrite lookup_insert_eq.
  - destruct (decode_pdf_image (PDict attrs data)) as [image_data|];
      [|eexists; split_and!; eauto].
    destruct (compress_image (Some image_data) quality mw mh) as [cd|];
      [|eexists; split_and!; eauto].
    destruct (negb (bool_decide (Some cd = Some image_data)) && PIL_AVAILABLE);
      simpl; [|eexists; split_and!; eauto].
    eexists. split_and!; [done| |done|by left].
    by apply well_formed_install.
Qed.

Lemma names_loop_ok remove quality mw mh xo pages names :
  forall s d,
    well_formed (st_heap s) pages ->
    dicts (st_heap s) !! xo = Some d ->
    NoDup names ->
    (forall n, n ∈ names -> is_Some (dict_lookup d n)) ->
    exists s',
      for_each names (entry_body remove quality mw mh xo) s = (Ok tt, s') /\
      well_formed (st_heap s') pages /\
      writer_pages s' = writer_pages s.
Proof.
  induction names as [|n names IH]; intros s d Hwf Hd Hnd Hin; simpl.
  - by exists s.
  - apply NoDup_cons in Hnd as [Hn Hnd].
    destruct (entry_body_ok remove quality mw mh xo n pages s d Hwf Hd)
      as (s1 & Hrun & Hwf1 & Hw1 & Hd1); [apply Hin; left|].
    unfold bind. rewrite Hrun.
    assert (exists d1, dicts (st_heap s1) !! xo = Some d1 /\
                       forall n', n' ∈ names -> is_Some (dict_lookup d1 n'))
      as (d1 & Hd1' & Hin1).
    { destruct Hd1 as [Hd1|Hd1]; eexists; (split; [exact Hd1|]).
      - intros n' Hn'. apply Hin. by right.
      - intros n' Hn'. rewrite dict_lookup_del_ne.
        + apply Hin. by right.
        + intros ->. done. }
    destruct (IH s1 d1 Hwf1 Hd1' Hnd Hin1) as (s2 & Hrun2 & Hwf2 & Hw2).
    exists s2. split_and!; [done | done | congruence].
Qed.

Lemma page_body_ok remove quality mw mh pages p s :
  well_formed (st_heap s) pages ->
  page_ok (st_heap s) p ->
  exists s',
    page_body remove quality mw mh p s = (Ok tt, s') /\
    well_formed (st_heap s') pages /\
    writer_pages s' = writer_pages s ++ [p].
Proof.
  intros Hwf Hp. unfold page_body, page_ok in *.
  destruct (page_resources p) as [|xo|]; [| |done].
  - unfold_M. unfold add_page. simpl. eexists. split_and!; eauto.
  - destruct Hp as [d Hd]. destruct (proj1 Hwf xo d Hd) as [Hnd _].
    destruct (names_loop_ok remove quality mw mh xo pages (d.*1) s d)
      as (s1 & Hrun & Hwf1 & Hw1); [done..| |].
    { intros n Hn. by apply dict_lookup_in. }
    unfold xobjects_keys. unfold_M. rewrite Hd. simpl. rewrite Hrun. simpl.
    unfold add_page. eexists. split_and!; [done|done|]. simpl.
    by rewrite Hw1.
Qed.

(** On a well-formed document the page loop returns normally and appends
    every page to the writer, once and in input order, whatever zlib and
    the codec do on each image. *)
Lemma extract_appends_every_page remove pages level s :
  well_formed (st_heap s) pages ->
  exists s',
    extract_and_compress_images remove pages level s = (Ok tt, s') /\
    writer_pages s' = writer_pages s ++ pages.
Proof.
  intros Hwf. unfold extract_and_compress_images.
  destruct (size_map level) as [mw mh].
  assert (forall ps s0,
    well_formed (st_heap s0) pages -> ps ⊆ pages ->
    exists s',
      for_each ps (page_body remove (quality_map level) mw mh) s0
        = (Ok tt, s') /\
      well_formed (st_heap s') pages /\
      writer_pages s' = writer_pages s0 ++ ps) as Hgen.
  { induction ps as [|p ps IH]; intros s0 Hwf0 Hsub; simpl.
    - exists s0. by rewrite app_nil_r.
    - assert (page_ok (st_heap s0) p) as Hp.
      { destruct Hwf0 as [_ Hall]. rewrite Forall_forall in Hall.
        apply Hall, Hsub. by left. }
      destruct (page_body_ok remove (quality_map level) mw mh pages p s0
                  Hwf0 Hp) as (s1 & Hrun & Hwf1 & Hw1).
      unfold bind. rewrite Hrun.
      destruct (IH s1 Hwf1) as (s2 & Hrun2 & Hwf2 & Hw2).
      { intros q Hq. apply Hsub. by right. }
      exists s2. split_and!; [done|done|].
      by rewrite Hw2, Hw1, <- app_assoc. }
  destruct (Hgen pages s Hwf) as (s' & Hrun & _ & Hw); [done|].
  by exists s'.
Qed.

(** A page whose XObject dictionary starts with an entry that is not a
    dictionary-like object is not added to the writer, whatever the
    options and the codec: [obj.get] raises outside the inner [try] and
    the outer handler goes on to the next page. *)
Lemma page_body_drops_page remove quality mw mh p xo name oid d s :
  page_resources p = XObject xo ->
  dicts (st_heap s) !! xo = Some ((name, oid) :: d) ->
  objs (st_heap s) !! oid = None \/ objs (st_heap s) !! oid = Some PNonDict ->
  page_body remove quality mw mh p s = (Ok tt, s).
Proof.
  intros Hp Hd Hobj.
  assert (xobjects_keys xo s = (Ok (name :: d.*1), s)) as Hkeys.
  { unfold xobjects_keys. unfold_M. by rewrite Hd. }
  assert (entry_body remove quality mw mh xo name s
          = (Raise AttributeError, s)) as Hentry.
  { unfold entry_body, xobjects_getitem. unfold_M. rewrite Hd. simpl.
    rewrite bool_decide_eq_true_2 by done.
    by destruct Hobj as [-> | ->]. }
  unfold page_body. rewrite Hp.
  unfold bind at 1. unfold try_except. unfold bind at 1. rewrite Hkeys.
  unfold bind at 1. simpl. unfold bind at 1. by rewrite Hentry.
Qed.

Lemma entry_body_keeps_dicts D quality mw mh xo name :
  preserves (fun s => dicts (st_heap s) = D)
            (entry_body false quality mw mh xo name).
Proof.
  intros s Hs.
  unfold entry_body, xobjects_getitem, image_body, incr_processed,
    incr_compressed, replace_image, set_heap.
  unfold_M. simpl.
  repeat case_match; simplify_eq/=; done.
Qed.

(** C6.  When the filter chain of an image object is [pre ++ f :: post],
    every stage of [pre] passes on and [f] selects one of the
    CCITTFaxDecode, JBIG2Decode and JPXDecode arms, [decode_pdf_image]
    returns [None] for it, and after a whole run of
    [extract_and_compress_images], from any state and under any
    options, the object store still holds the very same object:
    attributes (the filter entry among them) and payload.  When images
    are compressed rather than removed, the XObject dictionaries are as
    they were too, so every name that referred to the object still
    does. *)
Theorem unsupported_image_untouched
    (oid : nat) attrs data v pre f post
    remove pages level (s : rw_state) :
  objs (st_heap s) !! oid = Some (PDict attrs data) ->
  attrs !! "/Filter" = Some v ->
  filter_names v = pre ++ f :: post ->
  Forall passes_on pre ->
  select_arm f = ArmUnsupported ->
  decode_pdf_image (PDict attrs data) = None /\
  objs (st_heap (extract_and_compress_images remove pages level s).2)
    !! oid = Some (PDict attrs data) /\
  dicts (st_heap (extract_and_compress_images false pages level s).2)
    = dicts (st_heap s).
Proof.
  intros Hs Hv Hchain Hpre Hf.
  assert (decode_pdf_image (PDict attrs data) = None) as Hdec
    by (eapply decode_unsupported; eauto).
  split_and!; [done | |].
  - apply (extract_preserves
             (fun s => objs (st_heap s) !! oid = Some (PDict attrs data)));
      [| intros p s' Hs'; exact Hs' | exact Hs].
    intros. by apply entry_body_frame.
  - apply (extract_preserves
             (fun s' => dicts (st_heap s') = dicts (st_heap s)));
      [| intros p s' Hs'; exact Hs' | done].
    intros. apply entry_body_keeps_dicts.
Qed.

End RewriterFacts.

(* ===================================================================== *)
(** * Facts about [split_pdf_by_size]                                      *)
(* ===================================================================== *)

Section IndexFacts.
Context {A : Type}.

Lemma index_ok (l : list A) (k : nat) (x : A) :
  l !! k = Some x -> index l (Z.of_nat k) = Ok x.
Proof.
  intros Hx. pose proof (lookup_lt_Some _ _ _ Hx) as Hlt.
  assert ((Z.of_nat k <? 0) = false) as E1 by lia.
  assert ((Z.of_nat (length l) <=? Z.of_nat k) = false) as E2 by lia.
  unfold index. cbv zeta. rewrite E1. cbv iota. rewrite E1, E2. simpl.
  by rewrite Nat2Z.id, Hx.
Qed.

Lemma collect_index (l : list A) (first a c : nat) :
  (first + a + c <= length l)%nat ->
  collect (Z.of_nat <$> seq a c) (fun i => index l (Z.of_nat first + i))
  = Ok (take c (drop (first + a) l)).
Proof.
  revert a. induction c as [|c IH]; intros a Hle; simpl; [done|].
  destruct (lookup_lt_is_Some_2 l (first + a)) as [x Hx]; [lia|].
  rewrite <- Nat2Z.inj_add, (index_ok _ _ _ Hx). simpl.
  rewrite IH by lia. simpl.
  rewrite (drop_S _ _ _ Hx). simpl.
  by replace (first + S a)%nat with (S (first + a)) by lia.
Qed.

Lemma for_each_range {S} (Inv : nat -> S -> Prop)
    (body : Z -> M S unit) (n : nat) (s0 : S) :
  Inv 0%nat s0 ->
  (forall k s, (k < n)%nat -> Inv k s ->
     exists s', body (Z.of_nat k) s = (Ok tt, s') /\ Inv (Datatypes.S k) s') ->
  exists s', for_each (range (Z.of_nat n)) body s0 = (Ok tt, s') /\ Inv n s'.
Proof.
  intros H0 Hstep. unfold range. rewrite Nat2Z.id.
  assert (forall c a s, (a + c = n)%nat -> Inv a s ->
    exists s', for_each (Z.of_nat <$> seq a c) body s = (Ok tt, s') /\
               Inv n s') as Hgen.
  { induction c as [|c IH]; intros a s Hac Ha; simpl.
    - exists s. replace n with a by lia. done.
    - destruct (Hstep a s) as (s1 & Hb & H1); [lia | done |].
      unfold bind. rewrite Hb. apply IH; [lia | done]. }
  by apply (Hgen n 0%nat s0).
Qed.

End IndexFacts.

Section SplitterFacts.
Context {P : Type} `{PdfIO P}.

Lemma add_pages_ok (pages : list P) (first count : nat) :
  (first + count <= length pages)%nat ->
  add_pages pages (Z.of_nat first) (Z.of_nat count)
  = Ok (take count (drop first pages)).
Proof.
  intros Hle. unfold add_pages, range. rewrite Nat2Z.id.
  rewrite (collect_index pages first 0 count) by lia.
  by rewrite Nat.add_0_r.
Qed.

Lemma add_pages_current (pages : list P) (first count : Z) (k pic : nat) :
  first = Z.of_nat (k - pic) -> count = Z.of_nat pic ->
  (pic <= k <= length pages)%nat ->
  add_pages pages first count = Ok (current_chunk pages k pic).
Proof. intros -> -> Hle. apply add_pages_ok. lia. Qed.

Lemma current_chunk_snoc (pages : list P) (k pic : nat) (x : P) :
  (pic <= k)%nat -> pages !! k = Some x ->
  current_chunk pages k pic ++ [x] = current_chunk pages (S k) (S pic).
Proof.
  intros Hle Hx. unfold current_chunk.
  replace (S k - S pic)%nat with (k - pic)%nat by lia.
  symmetry. apply take_S_r. rewrite lookup_drop.
  by replace (k - pic + pic)%nat with k by lia.
Qed.

Lemma current_chunk_length (pages : list P) (k pic : nat) :
  (pic <= k <= length pages)%nat ->
  length (current_chunk pages k pic) = pic.
Proof.
  intros Hle. unfold current_chunk.
  rewrite length_take_le; [done|]. rewrite length_drop. lia.
Qed.

Lemma closed_current (pages : list P) (k pic : nat) :
  (pic <= k)%nat ->
  take (k - pic) pages ++ current_chunk pages k pic = take k pages.
Proof.
  intros Hle. unfold current_chunk. rewrite take_take_drop.
  by replace (k - pic + pic)%nat with k by lia.
Qed.

Lemma numbered_snoc input_path (cs : list (chunk_file P)) (ps : list P) :
  numbered input_path cs ->
  numbered input_path
    (cs ++ [ChunkFile (Z.of_nat (S (length cs)))
                      (chunk_filename input_path (Z.of_nat (S (length cs))))
                      ps]).
Proof.
  intros Hcs i c Hi. apply lookup_app_Some in Hi as [Hi | [Hge Hi]].
  - by apply Hcs.
  - apply list_lookup_singleton_Some in Hi as [Hi <-]. simpl.
    by replace i with (length cs) by lia.
Qed.

Lemma chunk_pages_concat_snoc (cs : list (chunk_file P)) (c : chunk_file P) :
  chunk_pages_concat (cs ++ [c]) = chunk_pages_concat cs ++ cf_pages c.
Proof.
  unfold chunk_pages_concat. rewrite fmap_app, concat_app. simpl.
  by rewrite app_nil_r.
Qed.

(** Closes one conjunct of [split_inv] once the state is explicit. *)
Ltac close_inv :=
  solve [ done | lia | by left | by right
        | by rewrite <- app_assoc | by rewrite app_nil_r ].

(** One turn of the loop keeps the invariant and does not raise. *)
Lemma split_body_step input_path size_bytes (pages : list P)
    (k : nat) (s : split_state P) :
  (k < length pages)%nat ->
  split_inv input_path size_bytes pages k s ->
  exists s',
    split_body input_path size_bytes pages (Z.of_nat (length pages))
               (Z.of_nat k) s = (Ok tt, s') /\
    split_inv input_path size_bytes pages (S k) s'.
Proof.
  intros Hk (pic & closed & Hpic & Hle & Hpos & Hcn & Hcat & Hok & Hnum
             & Hcur & Hfit & Hw & Htmp & Hrm & Hmsg).
  destruct s as [cn picz tf td w rm msg]. simpl in *. subst picz cn rm msg.
  rewrite decide_False, app_nil_r in Hw by lia. subst w.
  destruct (lookup_lt_is_Some_2 pages k Hk) as [x Hx].
  destruct Htmp as [tf0 ->].
  unfold split_body, cleanup_temp, set_temp, set_locals, write_chunk.
  unfold_M. rewrite (index_ok _ _ _ Hx). simpl.
  rewrite (add_pages_current pages _ _ k pic) by lia.
  rewrite (current_chunk_snoc pages k pic x Hle Hx).
  assert ((Z.of_nat k =? Z.of_nat (length pages) - 1)
          = bool_decide (S k = length pages)) as ->.
  { case_bool_decide; lia. }
  destruct (exceeds (written_size (current_chunk pages (S k) (S pic)))
                    size_bytes && (0 <? Z.of_nat pic)) eqn:Hex; simpl.
  - apply andb_true_iff in Hex as [Hex Hpic0].
    assert (0 < pic)%nat as Hpic1 by lia.
    set (c := ChunkFile (Z.of_nat (S (length closed)))
                (chunk_filename input_path (Z.of_nat (S (length closed))))
                (current_chunk pages k pic)).
    assert (split_inv_closed :
      chunk_pages_concat (closed ++ [c]) = take (S k - 1) pages /\
      Forall (chunk_ok size_bytes) (closed ++ [c]) /\
      numbered input_path (closed ++ [c]) /\
      Z.of_nat (S (length closed)) + 1
        = Z.of_nat (S (length (closed ++ [c]))) /\
      (prefixes_fit size_bytes pages -> closed ++ [c] = [])).
    { split_and!.
      - rewrite chunk_pages_concat_snoc, Hcat. simpl.
        rewrite closed_current by done. by rewrite Nat.sub_0_r.
      - apply Forall_app. split; [done|]. constructor; [|done].
        split; simpl.
        + intros Hnil. apply (f_equal length) in Hnil.
          rewrite current_chunk_length in Hnil by lia. simpl in Hnil. lia.
        + destruct Hcur as [Hcur|Hcur]; [right | by left].
          rewrite current_chunk_length by lia. lia.
      - by apply numbered_snoc.
      - rewrite length_app. simpl. lia.
      - intros Hall. exfalso. specialize (Hfit Hall). subst closed.
        unfold chunk_pages_concat in Hcat. simpl in Hcat.
        symmetry in Hcat. apply (f_equal length) in Hcat.
        rewrite length_take_le in Hcat by lia. simpl in Hcat.
        assert (pic = k) as -> by lia.
        unfold current_chunk in Hex.
        replace (S k - S k)%nat with 0%nat in Hex by lia.
        rewrite drop_0, (Hall (S k)) in Hex by lia. done. }
    destruct split_inv_closed as (Hcat' & Hok' & Hnum' & Hcn' & Hfit').
    case_bool_decide as Hlast; simpl.
    + rewrite (add_pages_current pages _ _ (S k) 1) by lia.
      eexists. split; [reflexivity|].
      exists 1%nat, (closed ++ [c]). simpl.
      rewrite decide_True by done.
      split_and!; close_inv.
    + eexists. split; [reflexivity|].
      exists 1%nat, (closed ++ [c]). simpl.
      rewrite decide_False by done.
      split_and!; close_inv.
  - assert (Z.of_nat pic + 1 = Z.of_nat (S pic)) as -> by lia.
    assert ((S pic <= 1)%nat \/
            exceeds (written_size (current_chunk pages (S k) (S pic)))
                    size_bytes = false) as Hcur'.
    { apply andb_false_iff in Hex as [Hex|Hex]; [by right | left; lia]. }
    replace (S k - S pic)%nat with (k - pic)%nat in * by lia.
    case_bool_decide as Hlast; simpl.
    + rewrite (add_pages_current pages _ _ (S k) (S pic)) by lia.
      eexists. split; [reflexivity|].
      exists (S pic), closed. simpl.
      rewrite decide_True by done.
      split_and!; close_inv.
    + eexists. split; [reflexivity|].
      exists (S pic), closed. simpl.
      rewrite decide_False by done.
      split_and!; close_inv.
Qed.

(** A call that can read its input returns normally, and leaves
    [split_post] behind. *)
Lemma run_split_spec input_path size_mb (pages : list P) :
  read_pdf input_path = Ok pages ->
  exists s,
    run_split input_path size_mb = (Ok tt, s) /\
    split_post input_path (size_mb * 1024 * 1024)%Q pages s.
Proof.
  intros Hread. unfold run_split, split_pdf_by_size.
  set (size_bytes := (size_mb * 1024 * 1024)%Q).
  unfold try_except, split_try.
  unfold bind at 1. unfold lift at 1. rewrite Hread.
  unfold bind at 1. unfold set_locals at 1, modify at 1.
  unfold bind at 1. unfold set_temp at 1, modify at 1.
  unfold bind at 1. simpl.
  set (s1 := SplitState 1 0 (Some None) false [] false None).
  destruct (decide (length pages = 0%nat)) as [Hn|Hn].
  - apply length_zero_iff_nil in Hn. subst pages. simpl.
    eexists. split; [reflexivity|].
    unfold split_post, chunk_pages_concat. simpl.
    split_and!; try done; try lia; by intros i c Hi.
  - destruct (for_each_range
                (split_inv input_path size_bytes pages)
                (split_body input_path size_bytes pages
                            (Z.of_nat (length pages)))
                (length pages) s1) as (s2 & Hrun & Hinv).
    { exists 0%nat, []. subst s1. simpl.
      rewrite decide_False by done.
      split_and!; try done; try lia; try (by left); by intros i c Hi. }
    { intros k s Hk Hs. by apply split_body_step. }
    rewrite Hrun.
    destruct Hinv as (pic & closed & Hpic & Hle & Hpos & Hcn & Hcat & Hok
                      & Hnum & Hcur & Hfit & Hw & Htmp & Hrm & Hmsg).
    destruct s2 as [cn picz tf td w rm msg]. simpl in *.
    subst picz cn rm msg. rewrite decide_True in Hw by done.
    assert (0 < pic)%nat as Hpic0 by (apply Hpos; lia).
    set (c := ChunkFile (Z.of_nat (S (length closed)))
                (chunk_filename input_path (Z.of_nat (S (length closed))))
                (current_chunk pages (length pages) pic)) in *.
    assert (length w = S (length closed)) as Hlen.
    { subst w. rewrite length_app. simpl. lia. }
    assert (split_post input_path size_bytes pages
              (SplitState (Z.of_nat (S (length closed))) (Z.of_nat pic)
                 tf td w
                 (bool_decide (1 < length w)%nat)
                 (Some (if bool_decide (1 < length w)%nat
                        then CreatedChunks (Z.of_nat (length w))
                        else NoSplittingNeeded)))) as Hpost.
    { unfold split_post. simpl. split_and!; try done.
      - subst w. rewrite chunk_pages_concat_snoc, Hcat. simpl.
        rewrite closed_current by done. by apply take_ge.
      - subst w. apply Forall_app. split; [done|]. constructor; [|done].
        split; simpl.
        + intros Hnil. apply (f_equal length) in Hnil.
          rewrite current_chunk_length in Hnil by lia. simpl in Hnil. lia.
        + destruct Hcur as [Hcur|Hcur]; [right | by left].
          rewrite current_chunk_length by lia. lia.
      - subst w. by apply numbered_snoc.
      - intros ->. done.
      - intros Hall. rewrite Hlen, (Hfit Hall). simpl. lia. }
    unfold_M. unfold remove_original, print_message. simpl.
    destruct (1 <? Z.of_nat (S (length closed))) eqn:Hmany; simpl.
    + eexists. split; [reflexivity|].
      apply Z.ltb_lt in Hmany.
      assert (1 < length w)%nat as Hgt by lia.
      rewrite (bool_decide_eq_true_2 _ Hgt) in Hpost.
      by rewrite Hlen in Hpost.
    + eexists. split; [reflexivity|].
      apply Z.ltb_ge in Hmany.
      assert (~ (1 < length w)%nat) as Hgt by lia.
      by rewrite (bool_decide_eq_false_2 _ Hgt) in Hpost.
Qed.

(** A call that cannot read its input lets [UnboundLocalError] escape
    from its handler, having written nothing. *)
Lemma run_split_unreadable input_path size_mb e :
  read_pdf input_path = Raise e ->
  (run_split input_path size_mb).1 = Raise UnboundLocalError /\
  written (run_split input_path size_mb).2 = [] /\
  original_removed (run_split input_path size_mb).2 = false /\
  message (run_split input_path size_mb).2 = Some ErrorSplitting.
Proof.
  intros Hread. unfold run_split, split_pdf_by_size, split_try.
  unfold try_except. unfold bind at 1. unfold lift at 1. rewrite Hread.
  done.
Qed.

(** Each piece of a concatenation is a segment of the whole. *)
Lemma concat_segment {A} (ls : list (list A)) (i : nat) (x : list A) :
  ls !! i = Some x ->
  x = take (length x) (drop (length (concat (take i ls))) (concat ls)).
Proof.
  revert i. induction ls as [|l ls IH]; intros [|i] Hi; simplify_eq/=.
  - by rewrite drop_0, take_app_length.
  - rewrite length_app, drop_app_add. by apply IH.
Qed.

Lemma exceeds_false (n : Z) (b : Q) :
  exceeds n b = false <-> (inject_Z n <= b)%Q.
Proof.
  unfold exceeds. rewrite negb_false_iff. apply Qle_bool_iff.
Qed.

(** C2.  When the input can be read, [split_pdf_by_size] returns normally;
    the chunks it wrote hold at least one page each, carry the numbers
    1, 2, ... in the order of writing, are each a run of consecutive
    pages of the document starting where the chunk before ends, and
    put end to end they are the page sequence of the document. *)
Theorem split_chunks_partition input_path size_mb (pages : list P) :
  read_pdf input_path = Ok pages ->
  let out := run_split input_path size_mb in
  out.1 = Ok tt /\
  chunk_pages_concat (written out.2) = pages /\
  Forall (fun c => cf_pages c <> []) (written out.2) /\
  numbered input_path (written out.2) /\
  (forall i c, written out.2 !! i = Some c ->
     cf_pages c =
       take (length (cf_pages c))
            (drop (length (chunk_pages_concat (take i (written out.2))))
                  pages)).
Proof.
  intros Hread.
  destruct (run_split_spec input_path size_mb pages Hread)
    as (s & -> & Hcat & Hok & Hnum & _).
  simpl. split_and!; try done.
  - eapply Forall_impl; [exact Hok|]. by intros c [Hc _].
  - intros i c Hi. rewrite <- Hcat. unfold chunk_pages_concat.
    rewrite fmap_take. apply concat_segment.
    by rewrite list_lookup_fmap, Hi.
Qed.

(** C3.  When the input can be read, [split_pdf_by_size] returns normally
    and every chunk it wrote holds at least one page and either
    measures at most the budget or consists of exactly one page that
    alone measures more than the budget.  Moreover a page that alone
    exceeds the budget, and that no file holding it measures less than,
    is the only page of some chunk. *)
Theorem split_chunks_within_budget input_path size_mb (pages : list P) :
  read_pdf input_path = Ok pages ->
  let out := run_split input_path size_mb in
  let budget := (size_mb * 1024 * 1024)%Q in
  out.1 = Ok tt /\
  Forall (fun c =>
            cf_pages c <> [] /\
            ((inject_Z (written_size (cf_pages c)) <= budget)%Q \/
             exists p, cf_pages c = [p] /\
                       ~ (inject_Z (written_size [p]) <= budget)%Q))
         (written out.2) /\
  (forall p,
     p ∈ pages ->
     ~ (inject_Z (written_size [p]) <= budget)%Q ->
     (forall ps, p ∈ ps -> written_size [p] <= written_size ps) ->
     exists c, c ∈ written out.2 /\ cf_pages c = [p]).
Proof.
  intros Hread.
  destruct (run_split_spec input_path size_mb pages Hread)
    as (s & -> & Hcat & Hok & _).
  simpl. set (budget := (size_mb * 1024 * 1024)%Q) in *.
  assert (Forall (fun c =>
            cf_pages c <> [] /\
            ((inject_Z (written_size (cf_pages c)) <= budget)%Q \/
             exists p, cf_pages c = [p] /\
                       ~ (inject_Z (written_size [p]) <= budget)%Q))
         (written s)) as Hall.
  { eapply Forall_impl; [exact Hok|]. intros c [Hne Hc]. split; [done|].
    destruct (exceeds (written_size (cf_pages c)) budget) eqn:Hex.
    - destruct Hc as [Hc|Hc]; [done|]. right.
      destruct (cf_pages c) as [|p [|q ps]]; simplify_eq/=.
      exists p. split; [done|]. rewrite <- exceeds_false. by rewrite Hex.
    - left. by apply exceeds_false. }
  split_and!; try done.
  intros p Hp Hbig Hmono. rewrite <- Hcat in Hp.
  unfold chunk_pages_concat in Hp.
  apply list_elem_of_In, in_concat in Hp as (ps & Hin & Hps).
  apply list_elem_of_In in Hin, Hps.
  apply list_elem_of_fmap in Hin as (c & -> & Hc).
  exists c. split; [done|].
  rewrite Forall_forall in Hall. destruct (Hall c Hc) as [_ [Hfit|Hone]].
  - exfalso. apply Hbig. eapply Qle_trans; [|exact Hfit].
    rewrite <- Zle_Qle. by apply Hmono.
  - destruct Hone as (q & Hq & _). rewrite Hq in Hps.
    apply list_elem_of_singleton in Hps. by subst q.
Qed.

(** C4.  For a document with at least one page whose serialized size is at
    most the budget, no prefix of it measuring more than the whole,
    [split_pdf_by_size] returns normally having written exactly one
    file, the numbered chunk [<stem>_part01<suffix>] holding every
    page; it does not delete the original and reports that no
    splitting was needed. *)
Theorem split_fitting_document input_path size_mb (pages : list P) :
  read_pdf input_path = Ok pages ->
  pages <> [] ->
  (forall j, (0 < j <= length pages)%nat ->
     written_size (take j pages) <= written_size pages) ->
  (inject_Z (written_size pages) <= size_mb * 1024 * 1024)%Q ->
  let out := run_split input_path size_mb in
  out.1 = Ok tt /\
  written out.2 = [ChunkFile 1 (chunk_filename input_path 1) pages] /\
  original_removed out.2 = false /\
  message out.2 = Some NoSplittingNeeded.
Proof.
  intros Hread Hne Hmono Hfit.
  destruct (run_split_spec input_path size_mb pages Hread)
    as (s & -> & Hcat & Hok & Hnum & _ & Hone & Hrm & Hmsg).
  simpl.
  assert (prefixes_fit (size_mb * 1024 * 1024)%Q pages) as Hall.
  { intros j Hj. apply exceeds_false.
    eapply Qle_trans; [|exact Hfit]. rewrite <- Zle_Qle. by apply Hmono. }
  specialize (Hone Hall).
  destruct (written s) as [|c [|c' cs]] eqn:Hw; simpl in *; [done| |lia].
  unfold chunk_pages_concat in Hcat. simpl in Hcat.
  rewrite app_nil_r in Hcat.
  destruct (Hnum 0%nat c eq_refl) as [Hno Hname].
  destruct c as [no name ps]. simpl in *. subst.
  by rewrite Hrm, Hmsg.
Qed.

(** C9.  For a document without pages, [split_pdf_by_size] returns normally,
    writes no chunk file, does not delete the original and reports
    that no splitting was needed. *)
Theorem split_empty_document input_path size_mb :
  read_pdf input_path = Ok [] ->
  let out := run_split input_path size_mb in
  out.1 = Ok tt /\
  written out.2 = [] /\
  original_removed out.2 = false /\
  message out.2 = Some NoSplittingNeeded.
Proof.
  intros Hread.
  destruct (run_split_spec input_path size_mb [] Hread)
    as (s & -> & _ & _ & _ & Hnil & _ & Hrm & Hmsg).
  simpl. rewrite Hrm, Hmsg, (Hnil eq_refl). done.
Qed.

End SplitterFacts.

(* ===================================================================== *)
(** * Facts about [compress_pdf]                                           *)
(* ===================================================================== *)

Section CompressorFacts.
Context `{Zlib} `{Pillow} `{Storage}.

Lemma compress_pdf_returns input_path output_path level remove chunk_size :
  exists b,
    compress_pdf input_path output_path level remove chunk_size = Ok b.
Proof.
  unfold compress_pdf, rtry.
  destruct (compress_try _ _ _ _ _); eauto.
Qed.

Lemma compress_pdf_raise input_path output_path level remove chunk_size e :
  compress_try input_path output_path level remove chunk_size = Raise e ->
  compress_pdf input_path output_path level remove chunk_size = Ok false.
Proof. intros Hr. unfold compress_pdf. by rewrite Hr. Qed.

(** [compress_pdf] always returns a boolean.  It returns [False] when
    opening the input raises, when the page loop raises, when the
    deduplication pass raises and when writing the output raises.  It
    returns [True] when the output has been written and either no
    split is requested or the requested split can read the file just
    written. *)
Lemma compress_pdf_outcomes
    input_path output_path level remove chunk_size :
  let result :=
    compress_pdf input_path output_path level remove chunk_size in
  (exists b, result = Ok b) /\
  (forall e, open_pdf input_path = Raise e -> result = Ok false) /\
  (forall pdf_reader e,
     open_pdf input_path = Ok pdf_reader ->
     fill_writer pdf_reader level remove = Raise e ->
     result = Ok false) /\
  (forall pdf_reader pdf_writer e,
     open_pdf input_path = Ok pdf_reader ->
     fill_writer pdf_reader level remove = Ok pdf_writer ->
     dedup pdf_writer = Raise e ->
     result = Ok false) /\
  (forall pdf_reader pdf_writer pdf_writer' e,
     open_pdf input_path = Ok pdf_reader ->
     fill_writer pdf_reader level remove = Ok pdf_writer ->
     dedup pdf_writer = Ok pdf_writer' ->
     write_pdf output_path pdf_writer' = Raise e ->
     result = Ok false) /\
  (forall pdf_reader pdf_writer pdf_writer' io,
     open_pdf input_path = Ok pdf_reader ->
     fill_writer pdf_reader level remove = Ok pdf_writer ->
     dedup pdf_writer = Ok pdf_writer' ->
     write_pdf output_path pdf_writer' = Ok io ->
     truthy chunk_size = false \/
     (exists pages, @read_pdf page io output_path = Ok pages) ->
     result = Ok true).
Proof.
  simpl. split; [apply compress_pdf_returns|].
  split_and!.
  - intros e He. apply (compress_pdf_raise _ _ _ _ _ e).
    unfold compress_try, serialize. by rewrite He.
  - intros r e Hr He. apply (compress_pdf_raise _ _ _ _ _ e).
    unfold compress_try, serialize. rewrite Hr. simpl. by rewrite He.
  - intros r w e Hr Hw He. apply (compress_pdf_raise _ _ _ _ _ e).
    unfold compress_try, serialize. rewrite Hr. simpl. rewrite Hw. simpl.
    by rewrite He.
  - intros r w w' e Hr Hw Hw' He. apply (compress_pdf_raise _ _ _ _ _ e).
    unfold compress_try, serialize. rewrite Hr. simpl. rewrite Hw. simpl.
    rewrite Hw'. simpl. by rewrite He.
  - intros r w w' io Hr Hw Hw' Hio Hsplit.
    unfold compress_pdf, compress_try, serialize. rewrite Hr. simpl. rewrite Hw.
    simpl. rewrite Hw'. simpl. rewrite Hio. simpl.
    destruct (truthy chunk_size); [|done].
    destruct Hsplit as [|[pages Hread]]; [done|].
    destruct (@run_split_spec page io output_path
                (default 0%Q chunk_size) pages Hread) as (s & -> & _).
    done.
Qed.

(** When the output has been written, a split is requested and the
    split cannot read the output, [compress_pdf] returns [False]. *)
Lemma compress_pdf_unreadable_output
    input_path output_path level remove chunk_size io e :
  serialize input_path output_path level remove = Ok io ->
  truthy chunk_size = true ->
  @read_pdf page io output_path = Raise e ->
  compress_pdf input_path output_path level remove chunk_size = Ok false.
Proof.
  intros Hio Hsplit Hread. unfold compress_pdf, compress_try.
  rewrite Hio. simpl. rewrite Hsplit.
  destruct (@run_split_unreadable page io output_path
              (default 0%Q chunk_size) e Hread) as (-> & _).
  done.
Qed.

End CompressorFacts.

(* ===================================================================== *)
(** * The model run on the sample document                                *)
(* ===================================================================== *)

(** C1.  The sample document has three pages; the XObject dictionary of the
    second one holds an entry that is not a dictionary.  The run returns
    normally, and the writer has received the first and the third page
    only: the second page is missing from the output. *)
Theorem extract_drops_page_on_resource_error :
  let out :=
    @extract_and_compress_images sample_zlib sample_pillow false
      sample_pages "medium" (init_state sample_heap) in
  out.1 = Ok tt /\
  writer_pages out.2 = [Page 0 (XObject 0); Page 2 (XObject 0)] /\
  length (writer_pages out.2) <> length sample_pages.
Proof. vm_compute. split_and!; done. Qed.

Lemma split_chunks_partition_witness :
  let io := sample_io (Ok [40; 40; 40]) in
  @read_pdf Z io "doc.pdf" = Ok [40; 40; 40] /\
  chunk_pages_concat (written (@run_split Z io "doc.pdf" (200 # 1048576)).2)
  = [40; 40; 40].
Proof.
  split; [reflexivity|].
  destruct (@split_chunks_partition Z (sample_io (Ok [40; 40; 40]))
              "doc.pdf" (200 # 1048576) [40; 40; 40] eq_refl)
    as (_ & Hcat & _).
  exact Hcat.
Defined.

Lemma split_chunks_within_budget_witness :
  let io := sample_io (Ok [40; 40; 40]) in
  @read_pdf Z io "doc.pdf" = Ok [40; 40; 40] /\
  (@run_split Z io "doc.pdf" (200 # 1048576)).1 = Ok tt.
Proof.
  split; [reflexivity|].
  destruct (@split_chunks_within_budget Z (sample_io (Ok [40; 40; 40]))
              "doc.pdf" (200 # 1048576) [40; 40; 40] eq_refl)
    as (Hret & _).
  exact Hret.
Defined.

Lemma split_fitting_document_witness :
  let io := sample_io (Ok [40; 40; 40]) in
  @read_pdf Z io "doc.pdf" = Ok [40; 40; 40] /\
  written (@run_split Z io "doc.pdf" 1).2
  = [ChunkFile 1 "doc_part01.pdf" [40; 40; 40]].
Proof.
  split; [reflexivity|].
  destruct (@split_fitting_document Z (sample_io (Ok [40; 40; 40]))
              "doc.pdf" 1 [40; 40; 40] eq_refl)
    as (_ & Hw & _).
  - discriminate.
  - intros [|[|[|[|j]]]] Hj; simpl in *; lia.
  - apply Qle_bool_iff. reflexivity.
  - exact Hw.
Defined.

(** The document fits the budget, the call reports that no splitting was
    needed and keeps the original, and yet a numbered chunk file has
    been created. *)
Lemma split_fitting_document_counterexample :
  let pages : list Z := [40; 40; 40] in
  let io := sample_io (Ok pages) in
  let out := @run_split Z io "doc.pdf" 1 in
  (inject_Z (@written_size Z io pages) <= 1 * 1024 * 1024)%Q /\
  out.1 = Ok tt /\
  original_removed out.2 = false /\
  message out.2 = Some NoSplittingNeeded /\
  ~ (written out.2 = []).
Proof.
  split; [by apply Qle_bool_iff|]. vm_compute. split_and!; done.
Qed.

Lemma split_empty_document_witness :
  let io := sample_io (Ok []) in
  @read_pdf Z io "doc.pdf" = Ok [] /\
  written (@run_split Z io "doc.pdf" 1).2 = [].
Proof.
  split; [reflexivity|].
  destruct (@split_empty_document Z (sample_io (Ok [])) "doc.pdf" 1 eq_refl)
    as (_ & Hw & _).
  exact Hw.
Defined.

(** C8.  On the sample store, with an output that takes the write and cannot
    be read back, and a split size of 1 MB: serialization completes, and
    the call returns [False].  The split that follows cannot read the
    file, its handler reads the local [temp_filename] before any
    assignment to it, and the [UnboundLocalError] reaches the [except]
    clause of [compress_pdf]. *)
Theorem compress_pdf_false_after_serialization :
  let st := sample_storage false in
  match @serialize sample_zlib sample_pillow st
          "in.pdf" "/dev/null" "medium" false with
  | Ok io =>
      (@run_split page io "/dev/null" 1).1 = Raise UnboundLocalError /\
      @compress_pdf sample_zlib sample_pillow st
        "in.pdf" "/dev/null" "medium" false (Some 1%Q) = Ok false
  | Raise _ => False
  end.
Proof. by vm_compute. Qed.


Lemma decode_dct_passthrough_witness :
  let chain := VArray ["/FlateDecode"; "/DCTDecode"; "/JPXDecode"] in
  let attrs : gmap string pyval := <["/Filter" := chain]> ∅ in
  let data := [Byte.x00; Byte.x01; Byte.x02] in
  attrs !! "/Filter" = Some chain /\
  filter_names chain = ["/FlateDecode"] ++ "/DCTDecode" :: ["/JPXDecode"] /\
  Forall passes_on ["/FlateDecode"] /\
  select_arm "/DCTDecode" = ArmDCT /\
  @inflate_stages sample_zlib ["/FlateDecode"] data
    = Some [Byte.x01; Byte.x02] /\
  @decode_pdf_image sample_zlib (PDict attrs (Some data))
    = Some [Byte.x01; Byte.x02].
Proof.
  intros chain attrs data.
  assert (attrs !! "/Filter" = Some chain) as H1 by reflexivity.
  assert (filter_names chain
          = ["/FlateDecode"] ++ "/DCTDecode" :: ["/JPXDecode"]) as H2
    by reflexivity.
  assert (Forall passes_on ["/FlateDecode"]) as H3
    by (constructor; [left; reflexivity | constructor]).
  assert (select_arm "/DCTDecode" = ArmDCT) as H4 by reflexivity.
  assert (@inflate_stages sample_zlib ["/FlateDecode"] data
          = Some [Byte.x01; Byte.x02]) as H5 by reflexivity.
  refine (conj H1 (conj H2 (conj H3 (conj H4 (conj H5 _))))).
  exact (@decode_dct_passthrough sample_zlib attrs data chain
           ["/FlateDecode"] "/DCTDecode" ["/JPXDecode"]
           [Byte.x01; Byte.x02] H1 H2 H3 H4 H5).
Defined.

Lemma unsupported_image_untouched_witness :
  let chain := VArray ["/FlateDecode"; "/JPXDecode"] in
  let attrs : gmap string pyval :=
    <["/Subtype" := VName "/Image"]> (<["/Filter" := chain]> ∅) in
  let obj := PDict attrs (Some [Byte.x0a; Byte.x0b]) in
  let s := init_state sample_heap in
  objs (st_heap s) !! 2%nat = Some obj /\
  attrs !! "/Filter" = Some chain /\
  filter_names chain = ["/FlateDecode"] ++ "/JPXDecode" :: [] /\
  Forall passes_on ["/FlateDecode"] /\
  select_arm "/JPXDecode" = ArmUnsupported /\
  objs (st_heap
          (@extract_and_compress_images sample_zlib sample_pillow false
             sample_pages "medium" s).2) !! 2%nat = Some obj.
Proof.
  intros chain attrs obj s.
  assert (objs (st_heap s) !! 2%nat = Some obj) as H1 by reflexivity.
  assert (attrs !! "/Filter" = Some chain) as H2 by reflexivity.
  assert (filter_names chain = ["/FlateDecode"] ++ "/JPXDecode" :: []) as H3
    by reflexivity.
  assert (Forall passes_on ["/FlateDecode"]) as H4
    by (constructor; [left; reflexivity | constructor]).
  assert (select_arm "/JPXDecode" = ArmUnsupported) as H5 by reflexivity.
  refine (conj H1 (conj H2 (conj H3 (conj H4 (conj H5 _))))).
  exact (proj1 (proj2 (@unsupported_image_untouched sample_zlib sample_pillow
                  2%nat attrs (Some [Byte.x0a; Byte.x0b]) chain
                  ["/FlateDecode"] "/JPXDecode" []
                  false sample_pages "medium" s H1 H2 H3 H4 H5))).
Defined.

(* ===================================================================== *)
(** * More about [decode_pdf_image]                                        *)
(* ===================================================================== *)

Section DecodeMore.
Context `{Zlib}.

Lemma inflate_stages_ignored (stages : list string) (data : bytes) :
  Forall (fun f => select_arm f = ArmIgnored) stages ->
  inflate_stages stages data = Some data.
Proof.
  induction 1 as [|f stages Hf _ IH]; simpl; [done|]. by rewrite Hf.
Qed.

Lemma inflate_stages_app (pre post : list string) (data : bytes) :
  inflate_stages (pre ++ post) data =
    match inflate_stages pre data with
    | Some data' => inflate_stages post data'
    | None => None
    end.
Proof.
  revert data. induction pre as [|f pre IH]; intros data; simpl; [done|].
  destruct (select_arm f); try apply IH.
  destruct (zlib_decompress data); [apply IH | done].
Qed.

Lemma decode_passing_chain_aux attrs data v :
  attrs !! "/Filter" = Some v ->
  Forall passes_on (filter_names v) ->
  decode_pdf_image (PDict attrs (Some data))
  = inflate_stages (filter_names v) data.
Proof.
  intros Hv Hall. rewrite (decode_pdf_image_filtered _ _ _ Hv).
  rewrite <- (app_nil_r (filter_names v)) at 1.
  rewrite decode_loop_app by done.
  by destruct (inflate_stages (filter_names v) data).
Qed.

(** X1.  When every filter of the chain is FlateDecode or a name the
    function does not know, the result is the payload with the
    FlateDecode stages inflated one after the other, the unknown stages
    being skipped; it is [None] as soon as one inflation fails. *)
Theorem decode_passing_chain attrs data v :
  attrs !! "/Filter" = Some v ->
  Forall passes_on (filter_names v) ->
  decode_pdf_image (PDict attrs (Some data))
  = inflate_stages (filter_names v) data.
Proof. apply decode_passing_chain_aux. Qed.

(** X2.  An image with no [/Filter] entry, or whose filters are all
    names the function does not know (LZWDecode, ASCII85Decode, ...),
    comes back as its stored payload, byte for byte: the unknown
    encodings are not undone and not reported. *)
Theorem decode_unknown_filters_keep_payload attrs data :
  attrs !! "/Filter" = None \/
  (exists v, attrs !! "/Filter" = Some v /\
             Forall (fun f => select_arm f = ArmIgnored) (filter_names v)) ->
  decode_pdf_image (PDict attrs (Some data)) = Some data.
Proof.
  intros [Hnone | (v & Hv & Hall)].
  - unfold decode_pdf_image. simpl. by rewrite Hnone.
  - rewrite (decode_passing_chain_aux attrs data v Hv).
    + by apply inflate_stages_ignored.
    + eapply Forall_impl; [exact Hall|]. intros f Hf. by right.
Qed.

Lemma decode_loop_result (filters : list string) (data r : bytes) :
  decode_loop filters data = Ok (Some r) ->
  exists pre post,
    filters = pre ++ post /\ Forall passes_on pre /\
    inflate_stages pre data = Some r.
Proof.
  revert data. induction filters as [|f filters IH]; intros data; simpl.
  - intros [= ->]. by exists [], [].
  - destruct (select_arm f) eqn:Hf.
    + destruct (zlib_decompress data) as [data'|] eqn:Hz; [|done].
      intros Hr. destruct (IH data' Hr) as (pre & post & -> & Hpre & Hinf).
      exists (f :: pre), post. split_and!; [done | |].
      * constructor; [by left | done].
      * simpl. by rewrite Hf, Hz.
    + intros [= ->]. by exists [], (f :: filters).
    + done.
    + intros Hr. destruct (IH data Hr) as (pre & post & -> & Hpre & Hinf).
      exists (f :: pre), post. split_and!; [done | |].
      * constructor; [by right | done].
      * simpl. by rewrite Hf.
Qed.

(** X3.  Whatever [decode_pdf_image] returns other than [None] is the
    stored payload of a stream object with the FlateDecode stages of
    some initial part of its filter chain inflated: nothing else is
    ever computed from the payload, and an object without [_data] or
    without a [get] method gives [None]. *)
Theorem decode_result_is_inflated_prefix (obj : pyobj) (r : bytes) :
  decode_pdf_image obj = Some r ->
  exists attrs data,
    obj = PDict attrs (Some data) /\
    ((attrs !! "/Filter" = None /\ r = data) \/
     exists v pre post,
       attrs !! "/Filter" = Some v /\
       filter_names v = pre ++ post /\
       Forall passes_on pre /\
       inflate_stages pre data = Some r).
Proof.
  destruct obj as [attrs [data|]|]; unfold decode_pdf_image; simpl;
    [| by destruct (attrs !! "/Filter") | done].
  intros Hr. exists attrs, data. split; [done|].
  destruct (attrs !! "/Filter") as [v|] eqn:Hv; simpl in Hr.
  - right. destruct (decode_loop (filter_names v) data) as [[r'|]|] eqn:Hl;
      simplify_eq.
    destruct (decode_loop_result _ _ _ Hl) as (pre & post & ? & ? & ?).
    by exists v, pre, post.
  - left. by simplify_eq.
Qed.

End DecodeMore.

Lemma decode_passing_chain_witness :
  let chain := VArray ["/ASCII85Decode"; "/FlateDecode"] in
  let attrs : gmap string pyval := <["/Filter" := chain]> ∅ in
  let data := [Byte.x00; Byte.x01; Byte.x02] in
  attrs !! "/Filter" = Some chain /\
  Forall passes_on (filter_names chain) /\
  @decode_pdf_image sample_zlib (PDict attrs (Some data))
  = @inflate_stages sample_zlib (filter_names chain) data.
Proof.
  intros chain attrs data.
  assert (attrs !! "/Filter" = Some chain) as H1 by reflexivity.
  assert (Forall passes_on (filter_names chain)) as H2
    by (repeat constructor; (by left) || (by right)).
  refine (conj H1 (conj H2 _)).
  exact (@decode_passing_chain sample_zlib attrs data chain H1 H2).
Defined.

Lemma decode_unknown_filters_keep_payload_witness :
  let chain := VName "/LZWDecode" in
  let attrs : gmap string pyval := <["/Filter" := chain]> ∅ in
  let data := [Byte.x00; Byte.x01; Byte.x02] in
  (exists v, attrs !! "/Filter" = Some v /\
             Forall (fun f => select_arm f = ArmIgnored) (filter_names v)) /\
  @decode_pdf_image sample_zlib (PDict attrs (Some data)) = Some data.
Proof.
  intros chain attrs data.
  assert (exists v, attrs !! "/Filter" = Some v /\
            Forall (fun f => select_arm f = ArmIgnored) (filter_names v))
    as H1 by (exists chain; split; [reflexivity | by repeat constructor]).
  refine (conj H1 _).
  exact (@decode_unknown_filters_keep_payload sample_zlib attrs data
           (or_intror H1)).
Defined.

Lemma decode_result_is_inflated_prefix_witness :
  let chain := VArray ["/FlateDecode"; "/DCTDecode"] in
  let attrs : gmap string pyval := <["/Filter" := chain]> ∅ in
  let data := [Byte.x00; Byte.x01; Byte.x02] in
  @decode_pdf_image sample_zlib (PDict attrs (Some data))
    = Some [Byte.x01; Byte.x02] /\
  exists attrs' data',
    PDict attrs (Some data) = PDict attrs' (Some data') /\
    ((attrs' !! "/Filter" = None /\ [Byte.x01; Byte.x02] = data') \/
     exists v pre post,
       attrs' !! "/Filter" = Some v /\
       filter_names v = pre ++ post /\
       Forall passes_on pre /\
       @inflate_stages sample_zlib pre data' = Some [Byte.x01; Byte.x02]).
Proof.
  intros chain attrs data.
  assert (@decode_pdf_image sample_zlib (PDict attrs (Some data))
          = Some [Byte.x01; Byte.x02]) as H1 by reflexivity.
  refine (conj H1 _).
  exact (@decode_result_is_inflated_prefix sample_zlib _ _ H1).
Defined.

(* ===================================================================== *)
(** * More about [extract_and_compress_images]                             *)
(* ===================================================================== *)

Section RewriterMore.
Context `{Zlib} `{Pillow}.

(** X4.  On a document whose pages have readable resources and whose
    XObject entries all resolve to dictionary-like objects, the page
    loop returns normally and has added every page to the writer, once
    and in input order, whatever zlib and the codec do on each image
    and whether images are compressed or removed. *)
Theorem well_formed_document_keeps_pages remove pages level s :
  well_formed (st_heap s) pages ->
  exists s',
    extract_and_compress_images remove pages level s = (Ok tt, s') /\
    writer_pages s' = writer_pages s ++ pages.
Proof. apply extract_appends_every_page. Qed.

Lemma entry_body_keeps_writer w remove quality mw mh xo name :
  preserves (fun s => writer_pages s = w)
            (entry_body remove quality mw mh xo name).
Proof.
  intros s Hs.
  unfold entry_body, xobjects_getitem, image_body, incr_processed,
    incr_compressed, xobjects_delitem, replace_image, set_heap.
  unfold_M. simpl.
  repeat case_match; simplify_eq/=; done.
Qed.

Lemma xobjects_loop_preserves (I : rw_state -> Prop)
    remove quality mw mh xo :
  (forall name, preserves I (entry_body remove quality mw mh xo name)) ->
  preserves I
    (try_except
       (let* names := xobjects_keys xo in
        for_each names (entry_body remove quality mw mh xo) ;; ret true)
       (fun _ => ret false)).
Proof.
  intros Hentry. apply preserves_try; [|intros; apply preserves_ret].
  apply preserves_bind.
  - unfold xobjects_keys. apply preserves_bind; [apply preserves_get|].
    intros s'. destruct (dicts (st_heap s') !! xo);
      [apply preserves_ret | apply preserves_raise].
  - intros names. apply preserves_bind; [|intros; apply preserves_ret].
    by apply preserves_for_each.
Qed.

Lemma xobjects_loop_returns remove quality mw mh xo s :
  exists b s1,
    try_except
      (let* names := xobjects_keys xo in
       for_each names (entry_body remove quality mw mh xo) ;; ret true)
      (fun _ => ret false) s = (Ok b, s1).
Proof.
  unfold try_except.
  destruct ((let* names := xobjects_keys xo in
             for_each names (entry_body remove quality mw mh xo) ;;
             ret true) s) as [[b|e] s1]; eauto.
Qed.

Lemma page_body_writer remove quality mw mh p s :
  let out := page_body remove quality mw mh p s in
  (out.1 = Ok tt /\
   (writer_pages out.2 = writer_pages s \/
    writer_pages out.2 = writer_pages s ++ [p])) \/
  (out.1 = Raise TypeError /\ page_resources p = Unreadable /\
   writer_pages out.2 = writer_pages s).
Proof.
  unfold page_body. destruct (page_resources p) as [|xo|] eqn:Hp.
  - left. unfold_M. unfold add_page. simpl. auto.
  - left.
    pose proof (xobjects_loop_preserves
                  (fun s' => writer_pages s' = writer_pages s)
                  remove quality mw mh xo
                  (entry_body_keeps_writer _ _ _ _ _ _) s eq_refl) as Hpres.
    destruct (xobjects_loop_returns remove quality mw mh xo s)
      as (b & s1 & Hrun).
    set (inner := try_except _ _) in *.
    unfold bind. rewrite Hrun in *. simpl in Hpres.
    destruct b; unfold add_page; unfold_M; simpl; rewrite Hpres; auto.
  - right. unfold_M. simpl. auto.
Qed.

(** X5.  For any document, well formed or not, the pages the writer
    holds after the loop are the pages it held before followed by some
    of the input pages in input order: no page is added twice, none is
    invented and none is reordered. *)
Theorem writer_pages_sublist remove pages level s :
  exists l,
    writer_pages (extract_and_compress_images remove pages level s).2
      = writer_pages s ++ l /\
    sublist l pages.
Proof.
  unfold extract_and_compress_images. destruct (size_map level) as [mw mh].
  revert s. induction pages as [|p pages IH]; intros s; simpl.
  - exists []. by rewrite app_nil_r.
  - unfold bind at 1.
    pose proof (page_body_writer remove (quality_map level) mw mh p s)
      as Hp. simpl in Hp.
    destruct (page_body remove (quality_map level) mw mh p s)
      as [[[]|e] s1]; simpl in *.
    + destruct (IH s1) as (l & Hl & Hsub).
      destruct Hp as [[_ [Hw|Hw]] | [? _]]; [| |done].
      * exists l. rewrite Hl, Hw. split; [done | by apply sublist_cons].
      * exists (p :: l). rewrite Hl, Hw, <- app_assoc.
        split; [done | by apply sublist_skip].
    + exists []. destruct Hp as [[? _] | (_ & _ & Hw)]; [done|].
      rewrite Hw, app_nil_r. split; [done | apply sublist_nil_l].
Qed.

Lemma for_each_pages_result remove quality mw mh pages s :
  (Exists unreadable pages ->
   (for_each pages (page_body remove quality mw mh) s).1
     = Raise TypeError) /\
  (Forall (fun p => ~ unreadable p) pages ->
   (for_each pages (page_body remove quality mw mh) s).1 = Ok tt).
Proof.
  revert s. induction pages as [|p pages IH]; intros s; simpl.
  - split; [by intros ?%Exists_nil | done].
  - unfold bind at 1. unfold bind at 1.
    pose proof (page_body_writer remove quality mw mh p s) as Hp.
    simpl in Hp.
    destruct (page_body remove quality mw mh p s) as [[[]|e] s1] eqn:Hrun;
      simpl in *.
    + destruct (IH s1) as [IH1 IH2]. split.
      * intros [Hbad|Hex]%Exists_cons; [|by apply IH1].
        exfalso. unfold page_body in Hrun. rewrite Hbad in Hrun.
        by unfold_M.
      * intros [_ Hall]%Forall_cons. by apply IH2.
    + destruct Hp as [[? _] | (-> & Hbad & _)]; [done|]. split; [done|].
      intros [Hok _]%Forall_cons. done.
Qed.

Lemma extract_result remove pages level s :
  (Exists unreadable pages ->
   (extract_and_compress_images remove pages level s).1 = Raise TypeError) /\
  (Forall (fun p => ~ unreadable p) pages ->
   (extract_and_compress_images remove pages level s).1 = Ok tt).
Proof.
  unfold extract_and_compress_images. destruct (size_map level) as [mw mh].
  apply for_each_pages_result.
Qed.

(** X6.  The page loop lets an exception out exactly when some page has
    resources on which the test of line 179 itself raises; it then
    stops at the first such page with a [TypeError].  Any other failure
    (of a dictionary, an entry, zlib or the codec) is absorbed by one of
    the two handlers. *)
Theorem extract_raises_iff_unreadable remove pages level s :
  (Exists unreadable pages ->
   (extract_and_compress_images remove pages level s).1 = Raise TypeError) /\
  (Forall (fun p => ~ unreadable p) pages ->
   (extract_and_compress_images remove pages level s).1 = Ok tt).
Proof. apply extract_result. Qed.

Lemma install_jpeg_installed attrs cd : jpeg_installed (install_jpeg attrs cd).
Proof.
  unfold jpeg_installed, install_jpeg. eexists _, cd.
  split; [reflexivity|].
  split_and!;
    repeat first
      [ rewrite lookup_delete_eq | rewrite lookup_delete_ne by done
      | rewrite lookup_insert_eq | rewrite lookup_insert_ne by done ];
    done.
Qed.

Lemma entry_body_installs (O : gmap nat pyobj) remove quality mw mh xo name :
  preserves
    (fun s => forall oid,
       objs (st_heap s) !! oid = O !! oid \/
       exists o, objs (st_heap s) !! oid = Some o /\ jpeg_installed o)
    (entry_body remove quality mw mh xo name).
Proof.
  intros s Hs.
  unfold entry_body, xobjects_getitem, image_body, incr_processed,
    incr_compressed, xobjects_delitem, replace_image, set_heap.
  unfold_M. simpl.
  repeat case_match; simplify_eq/=; try done.
  all: intros oid'; match goal with
       | |- context [<[?k := _]> _ !! oid'] =>
           destruct (decide (k = oid')) as [<-|Hne];
           [ rewrite lookup_insert_eq; right; eexists; split;
             [reflexivity | apply install_jpeg_installed]
           | rewrite lookup_insert_ne by done; apply Hs ]
       end.
Qed.

(** X7.  After the loop every object of the store is either exactly as
    it was, or a stream the loop installed: its [/Length] is the length
    of its payload, its [/Filter] is [/DCTDecode], its [/ColorSpace] is
    [/DeviceRGB], and it has no [/DecodeParms], [/SMask] or [/Mask]. *)
Theorem modified_objects_consistent remove pages level s oid :
  let s' := (extract_and_compress_images remove pages level s).2 in
  objs (st_heap s') !! oid = objs (st_heap s) !! oid \/
  exists o, objs (st_heap s') !! oid = Some o /\ jpeg_installed o.
Proof.
  simpl. revert oid.
  apply (extract_preserves
           (fun s' => forall oid,
              objs (st_heap s') !! oid = objs (st_heap s) !! oid \/
              exists o, objs (st_heap s') !! oid = Some o /\
                        jpeg_installed o)).
  - intros. apply entry_body_installs.
  - intros p s' Hs'. exact Hs'.
  - intros oid. by left.
Qed.




Lemma entry_body_without_pillow (h : heap) (c : Z) quality mw mh xo name :
  PIL_AVAILABLE = false ->
  preserves (fun s => st_heap s = h /\ images_compressed s = c)
            (entry_body false quality mw mh xo name).
Proof.
  intros Hpil s [Hh Hc].
  unfold entry_body, xobjects_getitem, image_body, incr_processed,
    incr_compressed, replace_image, set_heap.
  unfold_M. simpl. rewrite Hpil.
  repeat case_match; simplify_eq/=; try done.
  all: match goal with
       | Hb : _ && false = true |- _ => by rewrite andb_false_r in Hb
       end.
Qed.

(** X9.  When Pillow is not installed, a run that compresses images
    changes nothing: the object graph is after the loop what it was
    before, and [images_compressed] keeps its value. *)
Theorem without_pillow_nothing_changes pages level s :
  PIL_AVAILABLE = false ->
  let s' := (extract_and_compress_images false pages level s).2 in
  st_heap s' = st_heap s /\ images_compressed s' = images_compressed s.
Proof.
  intros Hpil. simpl.
  apply (extract_preserves
           (fun s' => st_heap s' = st_heap s /\
                      images_compressed s' = images_compressed s));
    [| intros p s' Hs'; exact Hs' | done].
  intros. by apply entry_body_without_pillow.
Qed.

End RewriterMore.

Section CompressorMore.
Context `{Zlib} `{Pillow} `{Storage}.

(** X10.  One page whose resources cannot be tested fails the whole
    document: the exception leaves the page loop, nothing is written,
    and [compress_pdf] returns [False]. *)
Theorem compress_pdf_unreadable_page
    input_path output_path level remove chunk_size pdf_reader :
  open_pdf input_path = Ok pdf_reader ->
  Exists unreadable (doc_pages pdf_reader) ->
  serialize input_path output_path level remove = Raise TypeError /\
  compress_pdf input_path output_path level remove chunk_size = Ok false.
Proof.
  intros Hopen Hbad.
  assert (serialize input_path output_path level remove = Raise TypeError)
    as Hser.
  { unfold serialize, fill_writer. rewrite Hopen. simpl.
    pose proof (proj1 (extract_result remove (doc_pages pdf_reader) level
                         (init_state (doc_heap pdf_reader))) Hbad) as Hr.
    destruct (extract_and_compress_images _ _ _ _) as [r s1].
    simpl in Hr. by subst r. }
  split; [done|]. unfold compress_pdf, compress_try. by rewrite Hser.
Qed.

End CompressorMore.

Lemma sample_heap_ok_well_formed : well_formed sample_heap_ok sample_pages_ok.
Proof.
  split.
  - intros xo d Hd. unfold sample_heap_ok in Hd. simpl in Hd.
    apply lookup_insert_Some in Hd as [[<- <-] | [_ Hd]]; [|done].
    split.
    + simpl. by apply (bool_decide_unpack _).
    + intros name oid. simpl. unfold resolves.
      repeat case_bool_decide; intros Hoid; simplify_eq;
        eexists _, _; reflexivity.
  - repeat constructor; unfold page_ok; simpl; eauto.
Qed.

Lemma well_formed_document_keeps_pages_witness :
  well_formed (st_heap (init_state sample_heap_ok)) sample_pages_ok /\
  exists s',
    @extract_and_compress_images sample_zlib sample_pillow true
      sample_pages_ok "high" (init_state sample_heap_ok) = (Ok tt, s') /\
    writer_pages s' = [] ++ sample_pages_ok.
Proof.
  refine (conj sample_heap_ok_well_formed _).
  exact (@well_formed_document_keeps_pages sample_zlib sample_pillow true
           sample_pages_ok "high" (init_state sample_heap_ok)
           sample_heap_ok_well_formed).
Defined.

Lemma without_pillow_nothing_changes_witness :
  @PIL_AVAILABLE sample_pillow_off = false /\
  st_heap (@extract_and_compress_images sample_zlib sample_pillow_off false
             sample_pages "medium" (init_state sample_heap)).2
  = sample_heap.
Proof.
  refine (conj eq_refl _).
  exact (proj1 (@without_pillow_nothing_changes sample_zlib sample_pillow_off
                  sample_pages "medium" (init_state sample_heap) eq_refl)).
Defined.

Lemma compress_pdf_unreadable_page_witness :
  let d := Document [Page 0 NoXObject; Page 1 Unreadable] sample_heap in
  @open_pdf (sample_storage_of d) "in.pdf" = Ok d /\
  Exists unreadable (doc_pages d) /\
  @compress_pdf sample_zlib sample_pillow (sample_storage_of d)
    "in.pdf" "out.pdf" "medium" false None = Ok false.
Proof.
  intros d.
  assert (Exists unreadable (doc_pages d)) as Hbad
    by (right; left; reflexivity).
  refine (conj eq_refl (conj Hbad _)).
  exact (proj2 (@compress_pdf_unreadable_page sample_zlib sample_pillow
                  (sample_storage_of d) "in.pdf" "out.pdf" "medium" false
                  None d eq_refl Hbad)).
Defined.

(* ===================================================================== *)
(** * What [--remove-images] removes                                      *)
(* ===================================================================== *)

Section RemoveImages.
Context `{Zlib} `{Pillow}.












End RemoveImages.


(* ===================================================================== *)
(** * The splitter as a greedy partition                                  *)
(* ===================================================================== *)

Section SplitterMore.
Context {P : Type} `{PdfIO P}.

Lemma current_chunk_one (pages : list P) (k : nat) (x : P) :
  pages !! k = Some x -> current_chunk pages (S k) 1 = [x].
Proof.
  intros Hx. unfold current_chunk.
  replace (S k - 1)%nat with k by lia.
  by rewrite (drop_S _ _ _ Hx).
Qed.

Lemma current_chunk_nonempty (pages : list P) (k pic : nat) :
  (pic <= k <= length pages)%nat ->
  match current_chunk pages k pic with [] => false | _ => true end
  = (0 <? Z.of_nat pic).
Proof.
  intros Hle. pose proof (current_chunk_length pages k pic Hle) as Hl.
  destruct (current_chunk pages k pic); destruct pic; simplify_eq/=; done.
Qed.

(** One turn of the loop follows [greedy_from] and removes the probe. *)
Lemma split_body_greedy input_path size_bytes (pages : list P)
    (k : nat) (s : split_state P) :
  (k < length pages)%nat ->
  greedy_inv size_bytes pages k s ->
  exists s',
    split_body input_path size_bytes pages (Z.of_nat (length pages))
               (Z.of_nat k) s = (Ok tt, s') /\
    greedy_inv size_bytes pages (S k) s'.
Proof.
  intros Hk (pic & closed & Hpic & Hle & Hpos & Hg & Hw & Htmp & Htd).
  destruct s as [cn picz tf td w rm msg]. simpl in *. subst picz td.
  rewrite decide_False, app_nil_r in Hw by lia.
  destruct (lookup_lt_is_Some_2 pages k Hk) as [x Hx].
  destruct Htmp as [tf0 ->].
  rewrite (drop_S _ _ _ Hx) in Hg. simpl in Hg.
  rewrite (current_chunk_snoc pages k pic x Hle Hx) in Hg.
  rewrite current_chunk_nonempty in Hg by lia.
  unfold split_body, cleanup_temp, set_temp, set_locals, write_chunk.
  unfold_M. rewrite (index_ok _ _ _ Hx). simpl.
  rewrite (add_pages_current pages _ _ k pic) by lia.
  rewrite (current_chunk_snoc pages k pic x Hle Hx).
  assert ((Z.of_nat k =? Z.of_nat (length pages) - 1)
          = bool_decide (S k = length pages)) as ->.
  { case_bool_decide; lia. }
  destruct (exceeds (written_size (current_chunk pages (S k) (S pic)))
                    size_bytes && (0 <? Z.of_nat pic)) eqn:Hex; simpl.
  - rewrite <- (current_chunk_one pages k x Hx) in Hg.
    case_bool_decide as Hlast; simpl.
    + rewrite (add_pages_current pages _ _ (S k) 1) by lia.
      eexists. split; [reflexivity|].
      exists 1%nat, (closed ++ [current_chunk pages k pic]). simpl.
      rewrite decide_True by done. rewrite !fmap_app, Hw. simpl.
      split_and!; try done; try lia; try by rewrite <- app_assoc.
    + eexists. split; [reflexivity|].
      exists 1%nat, (closed ++ [current_chunk pages k pic]). simpl.
      rewrite decide_False by done. rewrite !fmap_app, Hw. simpl.
      split_and!; try done; try lia; try by rewrite <- app_assoc.
  - assert (Z.of_nat pic + 1 = Z.of_nat (S pic)) as -> by lia.
    case_bool_decide as Hlast; simpl.
    + rewrite (add_pages_current pages _ _ (S k) (S pic)) by lia.
      eexists. split; [reflexivity|].
      exists (S pic), closed. simpl.
      rewrite decide_True by done. rewrite !fmap_app, Hw. simpl.
      split_and!; try done; lia.
    + eexists. split; [reflexivity|].
      exists (S pic), closed. simpl.
      rewrite decide_False by done. rewrite Hw, app_nil_r.
      split_and!; try done; lia.
Qed.

(** A call that can read its input writes the chunks of [greedy_from],
    in order, and leaves no probe file. *)
Lemma run_split_greedy input_path size_mb (pages : list P) :
  read_pdf input_path = Ok pages ->
  exists s,
    run_split input_path size_mb = (Ok tt, s) /\
    cf_pages <$> written s
      = greedy_from (size_mb * 1024 * 1024)%Q [] pages /\
    temp_on_disk s = false.
Proof.
  intros Hread. unfold run_split, split_pdf_by_size.
  set (size_bytes := (size_mb * 1024 * 1024)%Q).
  unfold try_except, split_try.
  unfold bind at 1. unfold lift at 1. rewrite Hread.
  unfold bind at 1. unfold set_locals at 1, modify at 1.
  unfold bind at 1. unfold set_temp at 1, modify at 1.
  unfold bind at 1. simpl.
  set (s1 := SplitState 1 0 (Some None) false [] false None).
  destruct (decide (length pages = 0%nat)) as [Hn|Hn].
  - apply length_zero_iff_nil in Hn. subst pages. simpl.
    eexists. split; [reflexivity|]. done.
  - destruct (for_each_range
                (greedy_inv size_bytes pages)
                (split_body input_path size_bytes pages
                            (Z.of_nat (length pages)))
                (length pages) s1) as (s2 & Hrun & Hinv).
    { exists 0%nat, []. subst s1. simpl. rewrite drop_0.
      rewrite decide_False by done.
      split_and!; try done; lia. }
    { intros k s Hk Hs. by apply split_body_greedy. }
    rewrite Hrun.
    destruct Hinv as (pic & closed & Hpic & Hle & Hpos & Hg & Hw & Htmp
                      & Htd).
    rewrite decide_True in Hw by done. rewrite drop_all in Hg.
    simpl in Hg.
    assert (0 < pic)%nat as Hpic0 by (apply Hpos; lia).
    assert (length (current_chunk pages (length pages) pic) = pic) as Hlen
      by (apply current_chunk_length; lia).
    destruct s2 as [cn picz tf td w rm msg]. simpl in *.
    unfold_M. unfold remove_original, print_message. simpl.
    destruct (1 <? cn); simpl; eexists; (split; [reflexivity|]); simpl;
      (split; [|done]); rewrite Hw, <- Hg;
      destruct (current_chunk pages (length pages) pic);
      simpl in Hlen; [lia | done | lia | done].
Qed.

Lemma greedy_from_head size_bytes (rest : list P) :
  forall cur, cur <> [] ->
    exists ys tl, greedy_from size_bytes cur rest = (cur ++ ys) :: tl.
Proof.
  induction rest as [|x rest IH]; intros cur Hne; simpl.
  - destruct cur; [done|]. exists [], []. by rewrite app_nil_r.
  - destruct (exceeds _ _ && _).
    + eexists [], _. by rewrite app_nil_r.
    + destruct (IH (cur ++ [x])) as (ys & tl & ->); [by destruct cur|].
      exists (x :: ys), tl. by rewrite <- app_assoc.
Qed.

(** A chunk of [greedy_from] that has a successor could not take the
    successor's first page. *)
Lemma greedy_from_maximal size_bytes (rest : list P) :
  forall cur i c c',
    greedy_from size_bytes cur rest !! i = Some c ->
    greedy_from size_bytes cur rest !! S i = Some c' ->
    exists x ps,
      c' = x :: ps /\ exceeds (written_size (c ++ [x])) size_bytes = true.
Proof.
  induction rest as [|x rest IH]; intros cur i c c' Hc Hc'; simpl in *.
  - destruct cur; [done|]. by destruct i.
  - destruct (exceeds _ _ && _) eqn:Hex.
    + destruct i as [|i]; simpl in *.
      * simplify_eq.
        destruct (greedy_from_head size_bytes rest [x]) as (ys & tl & Hh);
          [done|].
        rewrite Hh in Hc'. simplify_eq/=. exists x, ys. split; [done|].
        by apply andb_true_iff in Hex as [Hex _].
      * by apply (IH [x] i).
    + by apply (IH (cur ++ [x]) i).
Qed.

(** X12.  When the input can be read, the chunks [split_pdf_by_size]
    writes are, in order, those of the greedy partition of the page
    sequence: pages are taken into the current chunk one by one, and the
    chunk is closed before a page exactly when it holds a page already
    and the file with that page added would measure more than the
    budget.  When the call returns the probe file is not on disk. *)
Theorem split_is_greedy input_path size_mb (pages : list P) :
  read_pdf input_path = Ok pages ->
  let out := run_split input_path size_mb in
  out.1 = Ok tt /\
  cf_pages <$> written out.2
    = greedy_from (size_mb * 1024 * 1024)%Q [] pages /\
  temp_on_disk out.2 = false.
Proof.
  intros Hread.
  destruct (run_split_greedy input_path size_mb pages Hread)
    as (s & -> & Hg & Htd).
  done.
Qed.

(** X13.  The chunks are as long as the budget allows: a chunk that is
    followed by another one, with the first page of that one added,
    would measure more than the budget. *)
Theorem split_chunks_maximal input_path size_mb (pages : list P) :
  read_pdf input_path = Ok pages ->
  let out := run_split input_path size_mb in
  forall i c c',
    written out.2 !! i = Some c ->
    written out.2 !! S i = Some c' ->
    exists x ps,
      cf_pages c' = x :: ps /\
      ~ (inject_Z (written_size (cf_pages c ++ [x]))
         <= size_mb * 1024 * 1024)%Q.
Proof.
  intros Hread.
  destruct (run_split_greedy input_path size_mb pages Hread)
    as (s & -> & Hg & _).
  simpl. intros i c c' Hc Hc'.
  destruct (greedy_from_maximal (size_mb * 1024 * 1024)%Q pages []
              i (cf_pages c) (cf_pages c')) as (x & ps & Hx & Hex).
  - by rewrite <- Hg, list_lookup_fmap, Hc.
  - by rewrite <- Hg, list_lookup_fmap, Hc'.
  - exists x, ps. split; [done|].
    rewrite <- exceeds_false. by rewrite Hex.
Qed.

(** X14.  When the input can be read, the original file is removed
    exactly when at least two chunks were written; it is then
    held, page for page, by the chunks, and the number reported is the
    number of files written.  When it is kept the report is that no
    splitting was needed. *)
Theorem split_removes_original_iff_split input_path size_mb
    (pages : list P) :
  read_pdf input_path = Ok pages ->
  let out := run_split input_path size_mb in
  (original_removed out.2 = true <-> (1 < length (written out.2))%nat) /\
  (original_removed out.2 = true ->
     chunk_pages_concat (written out.2) = pages /\
     message out.2
       = Some (CreatedChunks (Z.of_nat (length (written out.2))))) /\
  (original_removed out.2 = false ->
     message out.2 = Some NoSplittingNeeded).
Proof.
  intros Hread.
  destruct (run_split_spec input_path size_mb pages Hread)
    as (s & -> & Hcat & _ & _ & _ & _ & Hrm & Hmsg).
  simpl. rewrite Hrm, Hmsg. split_and!.
  - apply bool_decide_eq_true.
  - intros Hgt. by rewrite Hgt.
  - intros Hle. by rewrite Hle.
Qed.

(** X15.  When the input cannot be opened or parsed, the handler of
    [split_pdf_by_size] prints its message and then reads
    [temp_filename], which no assignment has reached: the call raises
    [UnboundLocalError], having written no chunk and kept the
    original. *)
Theorem split_unreadable_input_raises input_path size_mb e :
  read_pdf input_path = Raise e ->
  let out := run_split input_path size_mb in
  out.1 = Raise UnboundLocalError /\
  written out.2 = [] /\
  original_removed out.2 = false /\
  temp_on_disk out.2 = false /\
  message out.2 = Some ErrorSplitting.
Proof.
  intros Hread. simpl.
  unfold run_split, split_pdf_by_size, split_try.
  unfold try_except. unfold bind at 1. unfold lift at 1. rewrite Hread.
  done.
Qed.

End SplitterMore.

(* ===================================================================== *)
(** * Chunk file names                                                    *)
(* ===================================================================== *)

Lemma string_app_length (s t : string) :
  String.length (s +:+ t) = (String.length s + String.length t)%nat.
Proof. induction s as [|a s IH]; simpl; [done|]. by rewrite IH. Qed.

Lemma string_app_inv_tail (t : string) :
  forall s1 s2, s1 +:+ t = s2 +:+ t -> s1 = s2.
Proof.
  induction s1 as [|a s1 IH]; intros [|b s2] Heq;
    change ("" +:+ t) with t in *;
    change (String ?c ?s +:+ t) with (String c (s +:+ t)) in *.
  - done.
  - apply (f_equal String.length) in Heq.
    simpl in Heq. rewrite string_app_length in Heq. lia.
  - apply (f_equal String.length) in Heq.
    simpl in Heq. rewrite string_app_length in Heq. lia.
  - injection Heq as -> Heq. f_equal. by apply IH.
Qed.

(** A positive number is not printed with a leading zero. *)
Lemma pretty_N_go_head (x : N) :
  forall s, (0 < x)%N ->
    exists c t, pretty_N_go x s = String c t /\ c <> "0"%char.
Proof.
  induction (N.lt_wf_0 x) as [x _ IH]; intros s Hx.
  rewrite pretty_N_go_step by done.
  destruct (decide (x / 10 = 0)%N) as [Hz|Hz].
  - rewrite Hz, pretty_N_go_0. eexists _, _. split; [done|].
    apply N.div_small_iff in Hz; [|done].
    rewrite N.mod_small by done.
    assert (x = 1 \/ x = 2 \/ x = 3 \/ x = 4 \/ x = 5 \/ x = 6
            \/ x = 7 \/ x = 8 \/ x = 9)%N as Hc by lia.
    repeat (destruct Hc as [->|Hc]; [done|]). by subst.
  - apply IH; [apply N.div_lt; lia |]. by apply N.neq_0_lt_0.
Qed.

Lemma pretty_Z_head (z : Z) :
  0 < z -> exists c t, pretty z = String c t /\ c <> "0"%char.
Proof.
  intros Hz. destruct z as [|p|p]; try lia.
  unfold pretty, pretty_Z, pretty, pretty_positive, pretty, pretty_N.
  rewrite decide_False by done. by apply pretty_N_go_head.
Qed.

Lemma fmt_02d_inj (a b : Z) :
  0 <= a -> 0 <= b -> fmt_02d a = fmt_02d b -> a = b.
Proof.
  intros Ha Hb. unfold fmt_02d.
  destruct ((0 <=? a) && (a <? 10)) eqn:Ea;
    destruct ((0 <=? b) && (b <? 10)) eqn:Eb; simpl.
  - intros [= Heq]. by apply (inj pretty).
  - destruct (pretty_Z_head b) as (c & t & -> & Hc); [lia|].
    by intros [= <- _].
  - destruct (pretty_Z_head a) as (c & t & -> & Hc); [lia|].
    by intros [= -> _].
  - apply (inj pretty).
Qed.

Section ChunkNames.
Context {P : Type} `{PdfIO P}.

Lemma chunk_filename_inj input_path (a b : Z) :
  0 <= a -> 0 <= b ->
  chunk_filename input_path a = chunk_filename input_path b -> a = b.
Proof.
  intros Ha Hb. unfold chunk_filename. intros Heq.
  apply String.app_inj in Heq. simpl in Heq. simplify_eq.
  apply fmt_02d_inj; [done..|]. by eapply string_app_inv_tail.
Qed.

(** X16.  The files of one call have different names: no chunk is
    written over an earlier one, and no chunk bears the name of the
    probe file, which the loop overwrites and removes at every page. *)
Theorem split_chunk_names_distinct input_path size_mb (pages : list P) :
  read_pdf input_path = Ok pages ->
  let out := run_split input_path size_mb in
  (forall i j c c',
     written out.2 !! i = Some c -> written out.2 !! j = Some c' ->
     cf_name c = cf_name c' -> i = j) /\
  (forall c, c ∈ written out.2 ->
     cf_name c <> path_stem input_path +:+ "_temp_chunk.pdf").
Proof.
  intros Hread.
  destruct (run_split_spec input_path size_mb pages Hread)
    as (s & -> & _ & _ & Hnum & _).
  simpl. split.
  - intros i j c c' Hc Hc' Heq.
    destruct (Hnum i c Hc) as [_ Hi]. destruct (Hnum j c' Hc') as [_ Hj].
    rewrite Hi, Hj in Heq. apply chunk_filename_inj in Heq; lia.
  - intros c [i Hc]%list_elem_of_lookup.
    destruct (Hnum i c Hc) as [_ ->]. unfold chunk_filename. intros Heq.
    apply String.app_inj in Heq. simpl in Heq. discriminate.
Qed.

End ChunkNames.

(** The splitter theorems at a three-page document of which two pages
    fit the budget of 200 bytes and three do not. *)

Lemma split_is_greedy_witness :
  let io := sample_io (Ok [40; 40; 40]) in
  @read_pdf Z io "doc.pdf" = Ok [40; 40; 40] /\
  cf_pages <$> written (@run_split Z io "doc.pdf" (200 # 1048576)).2
  = @greedy_from Z io ((200 # 1048576) * 1024 * 1024)%Q [] [40; 40; 40].
Proof.
  split; [reflexivity|].
  destruct (@split_is_greedy Z (sample_io (Ok [40; 40; 40]))
              "doc.pdf" (200 # 1048576) [40; 40; 40] eq_refl)
    as (_ & Hg & _).
  exact Hg.
Defined.

Lemma split_chunks_maximal_witness :
  let io := sample_io (Ok [40; 40; 40]) in
  let out := @run_split Z io "doc.pdf" (200 # 1048576) in
  @read_pdf Z io "doc.pdf" = Ok [40; 40; 40] /\
  written out.2 !! 0%nat = Some (ChunkFile 1 "doc_part01.pdf" [40; 40]) /\
  written out.2 !! 1%nat = Some (ChunkFile 2 "doc_part02.pdf" [40]) /\
  let budget := ((200 # 1048576) * 1024 * 1024)%Q in
  let size (x : Z) := inject_Z (@written_size Z io ([40; 40] ++ [x])) in
  exists x ps, [40] = x :: ps /\ ~ (size x <= budget)%Q.
Proof.
  assert (written (@run_split Z (sample_io (Ok [40; 40; 40])) "doc.pdf"
                     (200 # 1048576)).2 !! 0%nat
          = Some (ChunkFile 1 "doc_part01.pdf" [40; 40])) as H0
    by (vm_compute; reflexivity).
  assert (written (@run_split Z (sample_io (Ok [40; 40; 40])) "doc.pdf"
                     (200 # 1048576)).2 !! 1%nat
          = Some (ChunkFile 2 "doc_part02.pdf" [40])) as H1
    by (vm_compute; reflexivity).
  refine (conj eq_refl (conj H0 (conj H1 _))).
  exact (@split_chunks_maximal Z (sample_io (Ok [40; 40; 40]))
           "doc.pdf" (200 # 1048576) [40; 40; 40] eq_refl
           0%nat _ _ H0 H1).
Defined.

Lemma split_removes_original_iff_split_witness :
  let io := sample_io (Ok [40; 40; 40]) in
  let out := @run_split Z io "doc.pdf" (200 # 1048576) in
  @read_pdf Z io "doc.pdf" = Ok [40; 40; 40] /\
  (original_removed out.2 = true <-> (1 < length (written out.2))%nat).
Proof.
  split; [reflexivity|].
  destruct (@split_removes_original_iff_split Z
              (sample_io (Ok [40; 40; 40]))
              "doc.pdf" (200 # 1048576) [40; 40; 40] eq_refl)
    as (Hiff & _).
  exact Hiff.
Defined.

Lemma split_unreadable_input_raises_witness :
  let io := sample_io (Raise PdfReadError) in
  @read_pdf Z io "doc.pdf" = Raise PdfReadError /\
  (@run_split Z io "doc.pdf" 1).1 = Raise UnboundLocalError.
Proof.
  split; [reflexivity|].
  destruct (@split_unreadable_input_raises Z
              (sample_io (Raise PdfReadError)) "doc.pdf" 1 PdfReadError
              eq_refl)
    as (Hr & _).
  exact Hr.
Defined.

Lemma split_chunk_names_distinct_witness :
  let io := sample_io (Ok [40; 40; 40]) in
  let out := @run_split Z io "doc.pdf" (200 # 1048576) in
  @read_pdf Z io "doc.pdf" = Ok [40; 40; 40] /\
  forall c, c ∈ written out.2 ->
    cf_name c <> @path_stem Z io "doc.pdf" +:+ "_temp_chunk.pdf".
Proof.
  split; [reflexivity|].
  destruct (@split_chunk_names_distinct Z (sample_io (Ok [40; 40; 40]))
              "doc.pdf" (200 # 1048576) [40; 40; 40] eq_refl)
    as (_ & Hprobe).
  exact Hprobe.
Defined.

(* ===================================================================== *)
(** * The outcome of [compress_pdf]                                       *)
(* ===================================================================== *)

Section CompressorOutcome.
Context `{Zlib} `{Pillow} `{Storage}.

(** X17.  [compress_pdf] never raises, and it returns [True] exactly
    when the output has been written and either no split is requested
    ([chunk_size] is [None] or zero) or the file just written can be read
    back by the splitter. *)
Theorem compress_pdf_true_iff
    input_path output_path level remove chunk_size :
  let result :=
    compress_pdf input_path output_path level remove chunk_size in
  (exists b, result = Ok b) /\
  (result = Ok true <->
   exists io,
     serialize input_path output_path level remove = Ok io /\
     (truthy chunk_size = false \/
      exists pages, @read_pdf page io output_path = Ok pages)).
Proof.
  simpl. split; [apply compress_pdf_returns|].
  unfold compress_pdf, compress_try.
  destruct (serialize input_path output_path level remove) as [io|e];
    simpl.
  - destruct (truthy chunk_size) eqn:Hsplit.
    + destruct (@read_pdf page io output_path) as [pages|e] eqn:Hread.
      * destruct (@run_split_spec page io output_path
                    (default 0%Q chunk_size) pages Hread) as (s & -> & _).
        simpl. split; [|done]. intros _. exists io. split; [done|].
        right. by exists pages.
      * destruct (@run_split_unreadable page io output_path
                    (default 0%Q chunk_size) e Hread) as (-> & _).
        simpl. split; [done|].
        intros (io' & [= <-] & [Hno | [pages Hpages]]); [done|].
        by rewrite Hread in Hpages.
    + simpl. split; [|done]. intros _. exists io. split; [done | by left].
  - split; [done|]. by intros (io & Hio & _).
Qed.

End CompressorOutcome.

(* ===================================================================== *)
(** * Facts about [format_file_size]                                       *)
(* ===================================================================== *)

Lemma round_half_even_proper (q1 q2 : Q) :
  (q1 == q2)%Q -> round_half_even q1 = round_half_even q2.
Proof.
  destruct q1 as [n1 d1], q2 as [n2 d2]. unfold Qeq, round_half_even.
  simpl. intros Heq.
  assert (n1 / Z.pos d1 = n2 / Z.pos d2) as Hfl.
  { rewrite <- (Z.div_mul_cancel_r n1 (Z.pos d1) (Z.pos d2)) by lia.
    rewrite <- (Z.div_mul_cancel_r n2 (Z.pos d2) (Z.pos d1)) by lia.
    rewrite Heq. f_equal. lia. }
  assert ((n1 mod Z.pos d1) * Z.pos d2 = (n2 mod Z.pos d2) * Z.pos d1)
    as Hr.
  { rewrite <- !Z.mul_mod_distr_r by lia. rewrite Heq. f_equal. lia. }
  pose proof (Z.mod_pos_bound n1 (Z.pos d1) ltac:(lia)) as Hb1.
  pose proof (Z.mod_pos_bound n2 (Z.pos d2) ltac:(lia)) as Hb2.
  rewrite <- Hfl.
  assert ((2 * (n1 mod Z.pos d1) <? Z.pos d1)
          = (2 * (n2 mod Z.pos d2) <? Z.pos d2)) as ->.
  { apply eq_true_iff_eq. rewrite !Z.ltb_lt. nia. }
  assert ((Z.pos d1 <? 2 * (n1 mod Z.pos d1))
          = (Z.pos d2 <? 2 * (n2 mod Z.pos d2))) as ->.
  { apply eq_true_iff_eq. rewrite !Z.ltb_lt. nia. }
  done.
Qed.

(** The text depends on the value only, not on the fraction that
    presents it. *)
Lemma fmt_2f_proper (q1 q2 : Q) :
  (q1 == q2)%Q -> fmt_2f q1 = fmt_2f q2.
Proof.
  intros Heq. unfold fmt_2f.
  assert ((Qnum q1 <? 0) = (Qnum q2 <? 0)) as ->.
  { unfold Qeq in Heq. apply eq_true_iff_eq. rewrite !Z.ltb_lt. nia. }
  rewrite (round_half_even_proper
             ((Z.abs (Qnum q1) # Qden q1) * 100)%Q
             ((Z.abs (Qnum q2) # Qden q2) * 100)%Q); [done|].
  apply Qmult_comp; [|reflexivity].
  unfold Qeq in *. simpl.
  apply (f_equal Z.abs) in Heq. rewrite !Z.abs_mul in Heq. exact Heq.
Qed.

(** Closes one exit of the loop of [format_file_size]: the tests that
    led there, read as integer inequalities, give the bounds. *)
Ltac scale_exit i :=
  exists i; eexists; split; [reflexivity|];
  repeat match goal with
         | E : Qle_bool _ _ = _ |- _ =>
             unfold Qle_bool, Qdiv, Qmult, Qinv, inject_Z in E;
             simpl in E;
             first [apply Z.leb_le in E | apply Z.leb_gt in E]
         end;
  split_and!;
  [ unfold Qeq, Qdiv, Qmult, Qinv, inject_Z; simpl; lia
  | lia | simpl; lia | simpl; lia ].

Lemma scale_loop_spec (n : Z) :
  0 < n ->
  exists (i : nat) (x : Q),
    scale_loop (length size_names) (inject_Z n) 0 = (x, Z.of_nat i) /\
    (x == inject_Z n / inject_Z (1024 ^ Z.of_nat i))%Q /\
    (i <= 3)%nat /\
    1024 ^ Z.of_nat i <= n /\
    ((i < 3)%nat -> n < 1024 ^ Z.of_nat (S i)).
Proof.
  intros Hn. unfold size_names. cbn [length scale_loop].
  change (Z.of_nat 4 - 1) with 3.
  destruct (Qle_bool 1024 (inject_Z n)) eqn:E1; cbn [andb];
    [|scale_exit 0%nat].
  change (0 <? 3) with true. cbn iota.
  destruct (Qle_bool 1024 (inject_Z n / 1024)) eqn:E2; cbn [andb];
    [|scale_exit 1%nat].
  change (0 + 1 <? 3) with true. cbn iota.
  destruct (Qle_bool 1024 (inject_Z n / 1024 / 1024)) eqn:E3; cbn [andb];
    [|scale_exit 2%nat].
  change (0 + 1 + 1 <? 3) with true. cbn iota.
  change (0 + 1 + 1 + 1 <? 3) with false. rewrite andb_false_r.
  scale_exit 3%nat.
Qed.

Lemma string_app_assoc (s t u : string) :
  (s +:+ t) +:+ u = s +:+ (t +:+ u).
Proof.
  induction s as [|a s IH]; [done|].
  change (String a ((s +:+ t) +:+ u) = String a (s +:+ (t +:+ u))).
  by rewrite IH.
Qed.

(** X18.  For a size of at least one byte, below [2 ^ 53],
    [format_file_size] returns normally; the unit is the largest of B,
    KB, MB, GB whose size does not exceed the argument, GB serving for
    everything above; the number printed is the argument divided by
    the size of the unit, to two decimals. *)
Theorem format_file_size_unit (n : Z) :
  0 < n < 2 ^ 53 ->
  exists (i : nat) (name : string),
    size_names !! i = Some name /\
    1024 ^ Z.of_nat i <= n /\
    ((i < 3)%nat -> n < 1024 ^ Z.of_nat (S i)) /\
    format_file_size n
    = Ok (fmt_2f (inject_Z n / inject_Z (1024 ^ Z.of_nat i)) +:+ name).
Proof.
  intros [Hn _].
  destruct (scale_loop_spec n Hn) as (i & x & Hloop & Hx & Hi & Hlo & Hhi).
  destruct (lookup_lt_is_Some_2 size_names i) as [name Hname];
    [simpl; lia|].
  exists i, name. split_and!; try done.
  unfold format_file_size. rewrite (proj2 (Z.eqb_neq n 0)) by lia.
  rewrite Hloop, (index_ok _ _ _ Hname). simpl.
  by rewrite (fmt_2f_proper _ _ Hx).
Qed.

(** X19.  A size from 1 to 1023 bytes is printed as the number itself
    with two zero decimals and the unit B. *)
Theorem format_file_size_below_1024 (n : Z) :
  0 < n < 1024 ->
  format_file_size n = Ok (pretty n +:+ ".00B").
Proof.
  intros [Hn Hlt].
  unfold format_file_size. rewrite (proj2 (Z.eqb_neq n 0)) by lia.
  unfold size_names. cbn [length scale_loop].
  assert (Qle_bool 1024 (inject_Z n) = false) as ->.
  { unfold Qle_bool. simpl. apply Z.leb_gt. lia. }
  cbn [andb]. simpl index. cbn [rbind].
  unfold fmt_2f, round_half_even. simpl.
  rewrite (proj2 (Z.ltb_ge n 0)) by lia.
  rewrite Z.div_1_r, Z.mod_1_r. simpl.
  rewrite Z.abs_eq by lia.
  rewrite Z.div_mul, Z.mod_mul by lia.
  change ("" +:+ pretty n +:+ "." +:+ fmt_02d 0)
    with (pretty n +:+ ".00").
  by rewrite string_app_assoc.
Qed.

Lemma format_file_size_unit_witness :
  0 < 1536 < 2 ^ 53 /\
  exists (i : nat) (name : string),
    size_names !! i = Some name /\
    1024 ^ Z.of_nat i <= 1536 /\
    ((i < 3)%nat -> 1536 < 1024 ^ Z.of_nat (S i)) /\
    format_file_size 1536
    = Ok (fmt_2f (inject_Z 1536 / inject_Z (1024 ^ Z.of_nat i)) +:+ name).
Proof.
  assert (0 < 1536 < 2 ^ 53) as Hn by (simpl; lia).
  exact (conj Hn (format_file_size_unit 1536 Hn)).
Defined.

Lemma format_file_size_below_1024_witness :
  0 < 512 < 1024 /\ format_file_size 512 = Ok "512.00B".
Proof.
  assert (0 < 512 < 1024) as Hn by lia.
  exact (conj Hn (format_file_size_below_1024 512 Hn)).
Defined.

(* ===================================================================== *)
(** * What the counter of processed images counts                         *)
(* ===================================================================== *)

Section ProcessedCount.
Context `{Zlib} `{Pillow}.







(** X21.  When images are compressed and not removed, no XObject
    dictionary changes: every name of every page keeps referring to the
    object it referred to, on any document. *)
Theorem compressing_keeps_dictionaries pages level s :
  dicts (st_heap (extract_and_compress_images false pages level s).2)
  = dicts (st_heap s).
Proof.
  apply (extract_preserves
           (fun s' => dicts (st_heap s') = dicts (st_heap s)));
    [| intros p s' Hs'; exact Hs' | done].
  intros. apply entry_body_keeps_dicts.
Qed.

End ProcessedCount.


(* ===================================================================== *)
(** * What [compress_pdf] hands to the writer                             *)
(* ===================================================================== *)

Section CompressorPages.
Context `{Zlib} `{Pillow} `{Storage}.

(** X22.  On a well-formed input document, what [compress_pdf] passes
    to the deduplication step and then writes holds the pages of the
    input, all of them, once each and in input order, whatever the
    compression level, with or without [--remove-images], and whatever
    zlib and the codec did on the images. *)
Theorem serialize_writes_every_page
    input_path output_path level remove (d : document) :
  open_pdf input_path = Ok d ->
  well_formed (doc_heap d) (doc_pages d) ->
  exists h,
    fill_writer d level remove = Ok (Document (doc_pages d) h) /\
    serialize input_path output_path level remove
    = rbind (dedup (Document (doc_pages d) h)) (write_pdf output_path).
Proof.
  intros Hopen Hwf.
  destruct (extract_appends_every_page remove (doc_pages d) level
              (init_state (doc_heap d)) Hwf) as (s & Hrun & Hw).
  exists (st_heap s).
  assert (fill_writer d level remove
          = Ok (Document (doc_pages d) (st_heap s))) as Hfill.
  { unfold fill_writer. rewrite Hrun. simpl. by rewrite Hw. }
  split; [done|].
  unfold serialize. rewrite Hopen. simpl. by rewrite Hfill.
Qed.

End CompressorPages.

Lemma serialize_writes_every_page_witness :
  let d := Document sample_pages_ok sample_heap_ok in
  @open_pdf (sample_storage_of d) "in.pdf" = Ok d /\
  well_formed (doc_heap d) (doc_pages d) /\
  exists h,
    @fill_writer sample_zlib sample_pillow d "medium" false
    = Ok (Document (doc_pages d) h).
Proof.
  intros d.
  refine (conj eq_refl (conj sample_heap_ok_well_formed _)).
  destruct (@serialize_writes_every_page sample_zlib sample_pillow
              (sample_storage_of d) "in.pdf" "out.pdf" "medium" false d
              eq_refl sample_heap_ok_well_formed) as (h & Hfill & _).
  by exists h.
Defined.
